(** * The campaign result model of gophish: [models/result.go]

    A [Result] is the per-recipient row of a campaign.  Its methods record an
    event in the campaign's event log, move the [Status] field through the
    funnel, and save the row.  This file embeds those methods as state-passing
    functions over an explicit database and proves the properties the
    specification states about them. *)

From Stdlib Require Import ZArith String Ascii List Bool Lia PrimFloat.
Import ListNotations.

Local Open Scope string_scope.
Local Open Scope list_scope.
Local Open Scope Z_scope.

(** ** Go values *)

(** [time.Time], as an instant in nanoseconds. *)
Definition time_Time : Type := Z.

(** [float64]: the handlers only copy coordinates, they never compute on them. *)
Definition float64 : Type := float.

(** Go's [error] values.  [ErrRecordNotFound] is [gorm.ErrRecordNotFound], the
    one error the source compares against. *)
Inductive error : Type :=
| ErrRecordNotFound
| ErrOther (msg : string).

(** A Go result pair [(v, err)]: exactly one side is meaningful. *)
Inductive res (A : Type) : Type :=
| Ok (a : A)
| Err (e : error).
Arguments Ok {A} a.
Arguments Err {A} e.

(** How a call ends: it returns to its caller, it ends the process
    ([log.Fatal]), or it panics (an index out of range). *)
Inductive outcome (A : Type) : Type :=
| Returns (a : A)
| Exits
| Panics.
Arguments Returns {A} a.
Arguments Exits {A}.
Arguments Panics {A}.

(** ** Data model *)

(** [Result], field for field. *)
Record Result : Type := mkResult {
  Id : Z;
  CampaignId : Z;
  UserId : Z;
  RId : string;
  Email : string;
  FirstName : string;
  LastName : string;
  Position : string;
  Status : string;
  IP : string;
  Latitude : float64;
  Longitude : float64;
  SendDate : time_Time;
  Reported : bool;
  ModifiedDate : time_Time
}.

Definition set_Status (s : string) (r : Result) : Result :=
  mkResult (Id r) (CampaignId r) (UserId r) (RId r) (Email r) (FirstName r)
    (LastName r) (Position r) s (IP r) (Latitude r) (Longitude r)
    (SendDate r) (Reported r) (ModifiedDate r).

Definition set_ModifiedDate (t : time_Time) (r : Result) : Result :=
  mkResult (Id r) (CampaignId r) (UserId r) (RId r) (Email r) (FirstName r)
    (LastName r) (Position r) (Status r) (IP r) (Latitude r) (Longitude r)
    (SendDate r) (Reported r) t.

Definition set_SendDate (t : time_Time) (r : Result) : Result :=
  mkResult (Id r) (CampaignId r) (UserId r) (RId r) (Email r) (FirstName r)
    (LastName r) (Position r) (Status r) (IP r) (Latitude r) (Longitude r)
    t (Reported r) (ModifiedDate r).

Definition set_Reported (b : bool) (r : Result) : Result :=
  mkResult (Id r) (CampaignId r) (UserId r) (RId r) (Email r) (FirstName r)
    (LastName r) (Position r) (Status r) (IP r) (Latitude r) (Longitude r)
    (SendDate r) b (ModifiedDate r).

Definition set_RId (k : string) (r : Result) : Result :=
  mkResult (Id r) (CampaignId r) (UserId r) k (Email r) (FirstName r)
    (LastName r) (Position r) (Status r) (IP r) (Latitude r) (Longitude r)
    (SendDate r) (Reported r) (ModifiedDate r).

Definition set_Geo (addr : string) (lat lon : float64) (r : Result) : Result :=
  mkResult (Id r) (CampaignId r) (UserId r) (RId r) (Email r) (FirstName r)
    (LastName r) (Position r) (Status r) addr lat lon
    (SendDate r) (Reported r) (ModifiedDate r).

(** [mmGeoPoint] and [mmCity], the shape the geo dataset decodes into. *)
Record mmGeoPoint : Type := mkGeoPoint {
  gp_Latitude : float64;
  gp_Longitude : float64
}.

Record mmCity : Type := mkCity { GeoPoint : mmGeoPoint }.

Module Event.
(** Modelled from the spec: the [Event] struct is declared in another file
    of the package.  An event carries the recipient email, the event kind
    ([Message]), the JSON detail payload and the timestamp, and belongs to
    one campaign's log. *)
Record t : Type := mk {
  CampaignId : Z;
  Email : string;
  Time : time_Time;
  Message : string;
  Details : string
}.

Definition set_Details (d : string) (e : t) : t :=
  mk (CampaignId e) (Email e) (Time e) (Message e) d.
End Event.

Module Campaign.
(** Modelled from the spec: the [Campaign] struct is declared in another
    file of the package.  Only its identity and owner matter here. *)
Record t : Type := mk {
  Id : Z;
  UserId : Z
}.
End Campaign.

(** The argument of [createEvent]'s [details interface{}] parameter when it is
    not [nil]: an [EventError] built from an error message, or the caller's
    [EventDetails]. *)
Inductive payload (D : Type) : Type :=
| EventError (Error : string)
| Details (d : D).
Arguments EventError {D} Error.
Arguments Details {D} d.

(** ** The database and the outside world *)

(** The tables the handlers touch through the package-level [db] handle. *)
Record World : Type := mkWorld {
  campaigns : list Campaign.t;
  events : list Event.t;
  results : list Result
}.

(** What one call cannot control: the clock read when the event is stamped,
    and whether each of the two writes reaches the database ([None] is Go's
    [nil] error). *)
Record Env : Type := mkEnv {
  now : time_Time;
  event_save : option error;
  result_save : option error
}.

(** Declarations the source uses and the package or its libraries provide:
    the status and event-kind constants, the JSON encoder, the IP parser and
    the geo dataset reader. *)
Class Externals : Type := {
  STATUS_QUEUED : string;
  EVENT_SENT : string;
  EVENT_SENDING_ERROR : string;
  EVENT_OPENED : string;
  EVENT_CLICKED : string;
  EVENT_DATA_SUBMIT : string;
  EVENT_REPORTED : string;
  STATUS_RETRY : string;
  ERROR : string;
  EventDetails : Type;
  json_Marshal : payload EventDetails -> res string;
  net_IP : Type;
  net_ParseIP : string -> option net_IP;
  Reader : Type;
  maxminddb_Open : string -> res Reader;
  Lookup : Reader -> option net_IP -> res mmCity
}.

(** Modelled from the spec: [GetCampaign] is defined in another file of the
    package.  It returns the campaign with the given id owned by the given
    user, or fails with NotFound. *)
Definition GetCampaign (w : World) (id uid : Z) : res Campaign.t :=
  match find (fun c => (Campaign.Id c =? id) && (Campaign.UserId c =? uid))
             (campaigns w) with
  | Some c => Ok c
  | None => Err ErrRecordNotFound
  end.

(** Modelled from the spec: [Campaign.AddEvent] is defined in another file of
    the package.  It stamps the event with its campaign and the recorded
    timestamp, appends it to the event log, and reports success or failure.
    The event is passed by pointer, so the caller sees the stamp. *)
Definition AddEvent (env : Env) (c : Campaign.t) (e : Event.t) (w : World)
  : World * Event.t * option error :=
  let e' := Event.mk (Campaign.Id c) (Event.Email e) (now env)
                     (Event.Message e) (Event.Details e) in
  match event_save env with
  | None => (mkWorld (campaigns w) (events w ++ [e']) (results w), e', None)
  | Some err => (w, e', Some err)
  end.

(** Writing a row: the row with the same [Id] is replaced, a new one is
    appended. *)
Fixpoint put_row (r : Result) (rows : list Result) : list Result :=
  match rows with
  | [] => [r]
  | x :: rows' => if Id x =? Id r then r :: rows' else x :: put_row r rows'
  end.

Definition get_row (id : Z) (rows : list Result) : option Result :=
  find (fun x => Id x =? id) rows.

(** [db.Save(r).Error] for a record that is stored already, as the receivers
    of the handlers are: the row of its primary key is written in place and
    the struct is left alone.  A record that was never stored has primary
    key 0 and takes the other path of [Save], [gorm_Save] below. *)
Definition db_Save (env : Env) (r : Result) (w : World) : World * option error :=
  match result_save env with
  | None => (mkWorld (campaigns w) (events w) (put_row r (results w)), None)
  | Some err => (w, Some err)
  end.

(** ** The handlers *)

Section Handlers.
Context {X : Externals}.

(** [createEvent]: look the campaign up, build the event, encode the
    details when there are any, append.  The value [AddEvent] returns is
    dropped, as in the source. *)
Definition createEvent (w : World) (env : Env) (r : Result)
    (status : string) (details : option (payload EventDetails))
  : World * res Event.t :=
  match GetCampaign w (CampaignId r) (UserId r) with
  | Err err => (w, Err err)
  | Ok c =>
    let e := Event.mk 0 (Email r) 0 status "" in
    let encoded :=
      match details with
      | None => Ok e
      | Some d =>
        match json_Marshal d with
        | Err err => Err err
        | Ok dj => Ok (Event.set_Details dj e)
        end
      end in
    match encoded with
    | Err err => (w, Err err)
    | Ok e1 =>
      let '(w', e2, _) := AddEvent env c e1 w in
      (w', Ok e2)
    end
  end.

(** A handler returns the database, the receiver as the caller sees it
    afterwards, and the [error]. *)
Definition handled : Type := World * Result * option error.

Definition save_and_return (env : Env) (r : Result) (w : World) : handled :=
  let '(w', err) := db_Save env r w in (w', r, err).

Definition HandleEmailSent (w : World) (env : Env) (r : Result) : handled :=
  match createEvent w env r EVENT_SENT None with
  | (w1, Err err) => (w1, r, Some err)
  | (w1, Ok event) =>
    let r := set_Status EVENT_SENT r in
    let r := set_ModifiedDate (Event.Time event) r in
    save_and_return env r w1
  end.

Definition HandleEmailError (w : World) (env : Env) (r : Result)
    (err : string) : handled :=
  match createEvent w env r EVENT_SENDING_ERROR (Some (EventError err)) with
  | (w1, Err err) => (w1, r, Some err)
  | (w1, Ok event) =>
    let r := set_Status ERROR r in
    let r := set_ModifiedDate (Event.Time event) r in
    save_and_return env r w1
  end.

Definition HandleEmailBackoff (w : World) (env : Env) (r : Result)
    (err : string) (sendDate : time_Time) : handled :=
  match createEvent w env r EVENT_SENDING_ERROR (Some (EventError err)) with
  | (w1, Err err) => (w1, r, Some err)
  | (w1, Ok event) =>
    let r := set_Status STATUS_RETRY r in
    let r := set_SendDate sendDate r in
    let r := set_ModifiedDate (Event.Time event) r in
    save_and_return env r w1
  end.

Definition HandleEmailOpened (w : World) (env : Env) (r : Result)
    (details : EventDetails) : handled :=
  match createEvent w env r EVENT_OPENED (Some (Details details)) with
  | (w1, Err err) => (w1, r, Some err)
  | (w1, Ok event) =>
    if (Status r =? EVENT_CLICKED)%string || (Status r =? EVENT_DATA_SUBMIT)%string
    then (w1, r, None)
    else
      let r := set_Status EVENT_OPENED r in
      let r := set_ModifiedDate (Event.Time event) r in
      save_and_return env r w1
  end.

Definition HandleClickedLink (w : World) (env : Env) (r : Result)
    (details : EventDetails) : handled :=
  match createEvent w env r EVENT_CLICKED (Some (Details details)) with
  | (w1, Err err) => (w1, r, Some err)
  | (w1, Ok event) =>
    if (Status r =? EVENT_DATA_SUBMIT)%string
    then (w1, r, None)
    else
      let r := set_Status EVENT_CLICKED r in
      let r := set_ModifiedDate (Event.Time event) r in
      save_and_return env r w1
  end.

Definition HandleFormSubmit (w : World) (env : Env) (r : Result)
    (details : EventDetails) : handled :=
  match createEvent w env r EVENT_DATA_SUBMIT (Some (Details details)) with
  | (w1, Err err) => (w1, r, Some err)
  | (w1, Ok event) =>
    let r := set_Status EVENT_DATA_SUBMIT r in
    let r := set_ModifiedDate (Event.Time event) r in
    save_and_return env r w1
  end.

Definition HandleEmailReport (w : World) (env : Env) (r : Result)
    (details : EventDetails) : handled :=
  match createEvent w env r EVENT_REPORTED (Some (Details details)) with
  | (w1, Err err) => (w1, r, Some err)
  | (w1, Ok event) =>
    let r := set_Reported true r in
    let r := set_ModifiedDate (Event.Time event) r in
    save_and_return env r w1
  end.

(** [UpdateGeo].  A dataset that does not open ends the process through
    [log.Fatal]; nothing after it returns the error.  The parsed address,
    [nil] when the string is not an IP, goes to [Lookup] unchecked. *)
Definition UpdateGeo (w : World) (env : Env) (r : Result) (addr : string)
  : outcome handled :=
  match maxminddb_Open "static/db/geolite2-city.mmdb" with
  | Err _ => Exits
  | Ok mmdb =>
    let ip := net_ParseIP addr in
    match Lookup mmdb ip with
    | Err err => Returns (w, r, Some err)
    | Ok city =>
      let r := set_Geo addr (gp_Latitude (GeoPoint city))
                       (gp_Longitude (GeoPoint city)) r in
      Returns (save_and_return env r w)
    end
  end.

End Handlers.

(** ** Identifier generation *)

Definition alphaNum : string :=
  "abcdefghijklmnopqrstuvwxyzABCDEFGHIJKLMNOPQRSTUVWXYZ0123456789".

(** [alphaNum[idx.Int64()]]: indexing outside the string panics. *)
Definition byte_at (s : string) (idx : Z) : option ascii :=
  if idx <? 0 then None else String.get (Z.to_nat idx) s.

(** What [GenerateId] cannot control: the outcome of each call of
    [rand.Int(rand.Reader, max)], numbered from 0, and a failure of the
    database on the uniqueness query of each attempt. *)
Record IdEnv : Type := mkIdEnv {
  rand_Int : nat -> Z -> res Z;
  query_error : nat -> option error
}.

(** The inner loop, [for i := range k], over the [n] positions still to fill;
    [calls] counts the draws made so far. *)
Fixpoint draw_key (ie : IdEnv) (n calls : nat) : outcome (res (list ascii)) :=
  match n with
  | O => Returns (Ok [])
  | S n' =>
    match rand_Int ie calls (Z.of_nat (String.length alphaNum)) with
    | Err err => Returns (Err err)
    | Ok idx =>
      match byte_at alphaNum idx with
      | None => Panics
      | Some c =>
        match draw_key ie n' (S calls) with
        | Returns (Ok k) => Returns (Ok (c :: k))
        | other => other
        end
      end
    end
  end.

(** [db.Table("results").Where("r_id=?", rid).First(&Result{}).Error]. *)
Definition db_First_by_r_id (failure : option error) (rid : string) (w : World)
  : option error :=
  match failure with
  | Some e => Some e
  | None =>
    match find (fun x => (RId x =? rid)%string) (results w) with
    | Some _ => None
    | None => Some ErrRecordNotFound
    end
  end.

(** The outer [for] loop has no bound in the source; [fuel] bounds the number
    of attempts the model follows, and [None] means the bound was reached
    with the loop still running. *)
Fixpoint GenerateId_from (fuel : nat) (ie : IdEnv) (w : World) (attempt : nat)
    (r : Result) : option (outcome (Result * option error)) :=
  match fuel with
  | O => None
  | S fuel' =>
    match draw_key ie 7 (7 * attempt) with
    | Panics => Some Panics
    | Exits => Some Exits
    | Returns (Err err) => Some (Returns (r, Some err))
    | Returns (Ok k) =>
      let r := set_RId (string_of_list_ascii k) r in
      match db_First_by_r_id (query_error ie attempt) (RId r) w with
      | Some ErrRecordNotFound => Some (Returns (r, None))
      | _ => GenerateId_from fuel' ie w (S attempt) r
      end
    end
  end.

Definition GenerateId (fuel : nat) (ie : IdEnv) (w : World) (r : Result)
  : option (outcome (Result * option error)) :=
  GenerateId_from fuel ie w 0 r.

(** The 62 alphanumeric symbols, by character code. *)
Definition alphanumeric (c : ascii) : bool :=
  let n := nat_of_ascii c in
  ((97 <=? n) && (n <=? 122) || (65 <=? n) && (n <=? 90)
   || (48 <=? n) && (n <=? 57))%nat.

(** The place of an alphanumeric character in [alphaNum], from its code. *)
Definition code_index (c : ascii) : nat :=
  let n := nat_of_ascii c in
  (if (97 <=? n) && (n <=? 122) then n - 97
   else if (65 <=? n) && (n <=? 90) then n - 65 + 26
   else n - 48 + 52)%nat.

(** Draws that succeed within the bound they were given. *)
Definition draws_in_range (ie : IdEnv) : Prop :=
  forall i, exists idx, rand_Int ie i 62 = Ok idx /\ 0 <= idx < 62.

(** The identifier tried at an attempt, and whether the database reports it
    free. *)
Definition free (ie : IdEnv) (w : World) (attempt : nat) : Prop :=
  exists k,
    draw_key ie 7 (7 * attempt) = Returns (Ok k) /\
    db_First_by_r_id (query_error ie attempt) (string_of_list_ascii k) w =
      Some ErrRecordNotFound.

(** ** The transition operations of the specification *)

Section Transitions.
Context {X : Externals}.

(** The seven operations of the specification's table, with their
    arguments. *)
Inductive transition : Type :=
| MarkSent
| MarkSendError (err : string)
| MarkBackoff (err : string) (nextSendTime : time_Time)
| MarkOpened (details : EventDetails)
| MarkClicked (details : EventDetails)
| MarkSubmitted (details : EventDetails)
| MarkReported (details : EventDetails).

(** Each operation is one handler of the source. *)
Definition transit (t : transition) (w : World) (env : Env) (r : Result)
  : handled :=
  match t with
  | MarkSent => HandleEmailSent w env r
  | MarkSendError err => HandleEmailError w env r err
  | MarkBackoff err d => HandleEmailBackoff w env r err d
  | MarkOpened d => HandleEmailOpened w env r d
  | MarkClicked d => HandleClickedLink w env r d
  | MarkSubmitted d => HandleFormSubmit w env r d
  | MarkReported d => HandleEmailReport w env r d
  end.

(** The event kind and the detail argument each handler passes to
    [createEvent]. *)
Definition kind_of (t : transition) : string :=
  match t with
  | MarkSent => EVENT_SENT
  | MarkSendError _ | MarkBackoff _ _ => EVENT_SENDING_ERROR
  | MarkOpened _ => EVENT_OPENED
  | MarkClicked _ => EVENT_CLICKED
  | MarkSubmitted _ => EVENT_DATA_SUBMIT
  | MarkReported _ => EVENT_REPORTED
  end.

Definition details_of (t : transition) : option (payload EventDetails) :=
  match t with
  | MarkSent => None
  | MarkSendError err | MarkBackoff err _ => Some (EventError err)
  | MarkOpened d | MarkClicked d | MarkSubmitted d | MarkReported d =>
    Some (Details d)
  end.

(** The guard of an operation: the statuses at which it skips the write. *)
Definition guarded (t : transition) (status : string) : bool :=
  match t with
  | MarkOpened _ =>
    (status =? EVENT_CLICKED)%string || (status =? EVENT_DATA_SUBMIT)%string
  | MarkClicked _ => (status =? EVENT_DATA_SUBMIT)%string
  | _ => false
  end.

(** A caller applying operations one after the other, each under the
    conditions of its own moment, whatever each one returns. *)
Fixpoint run (ts : list (transition * Env)) (w : World) (r : Result)
  : World * Result :=
  match ts with
  | [] => (w, r)
  | (t, env) :: ts' =>
    let '(w', r', _) := transit t w env r in run ts' w' r'
  end.

(** The JSON text [createEvent] stores: empty without details. *)
Definition encode (details : option (payload EventDetails)) : res string :=
  match details with
  | None => Ok ""
  | Some d => json_Marshal d
  end.

(** The event [createEvent] hands back once [AddEvent] has stamped it. *)
Definition recorded (env : Env) (c : Campaign.t) (r : Result)
    (status dj : string) : Event.t :=
  Event.mk (Campaign.Id c) (Email r) (now env) status dj.

(** The event log after an append that may have failed. *)
Definition appended (env : Env) (e : Event.t) (w : World) : World :=
  match event_save env with
  | None => mkWorld (campaigns w) (events w ++ [e]) (results w)
  | Some _ => w
  end.

(** The funnel of the specification, in order. *)
Definition funnel : list string :=
  [STATUS_QUEUED; EVENT_SENT; EVENT_OPENED; EVENT_CLICKED; EVENT_DATA_SUBMIT].

Fixpoint position (s : string) (l : list string) : option nat :=
  match l with
  | [] => None
  | x :: l' =>
    if (s =? x)%string then Some O
    else match position s l' with Some n => Some (S n) | None => None end
  end.

Definition funnel_rank (s : string) : option nat := position s funnel.

(** A status write regresses when both statuses are funnel stages and the
    new one comes earlier.  [ERROR] and [STATUS_RETRY] are no stages. *)
Definition regresses (old new : string) : bool :=
  match funnel_rank old, funnel_rank new with
  | Some a, Some b => (b <? a)%nat
  | _, _ => false
  end.

(** The status values are pairwise different strings. *)
Definition statuses_distinct : Prop :=
  NoDup [STATUS_QUEUED; EVENT_SENT; EVENT_OPENED; EVENT_CLICKED;
         EVENT_DATA_SUBMIT; ERROR; STATUS_RETRY].

(** Operations that report funnel progress past delivery. *)
Definition engagement (t : transition) : bool :=
  match t with
  | MarkOpened _ | MarkClicked _ | MarkSubmitted _ | MarkReported _ => true
  | _ => false
  end.

(** The receiver after an unguarded operation stamped [stamp]. *)
Definition written (t : transition) (stamp : time_Time) (r : Result) : Result :=
  set_ModifiedDate stamp
    match t with
    | MarkSent => set_Status EVENT_SENT r
    | MarkSendError _ => set_Status ERROR r
    | MarkBackoff _ d => set_SendDate d (set_Status STATUS_RETRY r)
    | MarkOpened _ => set_Status EVENT_OPENED r
    | MarkClicked _ => set_Status EVENT_CLICKED r
    | MarkSubmitted _ => set_Status EVENT_DATA_SUBMIT r
    | MarkReported _ => set_Reported true r
    end.

(** The status an operation writes, or keeps when its guard holds. *)
Definition status_after (t : transition) (old : string) : string :=
  if guarded t old then old
  else match t with
       | MarkSent => EVENT_SENT
       | MarkSendError _ => ERROR
       | MarkBackoff _ _ => STATUS_RETRY
       | MarkOpened _ => EVENT_OPENED
       | MarkClicked _ => EVENT_CLICKED
       | MarkSubmitted _ => EVENT_DATA_SUBMIT
       | MarkReported _ => old
       end.

End Transitions.

(** ** A concrete setting *)

(** Modelled from the spec: the constants are declared in another file of the
    package; these are the names the specification gives the statuses and
    event kinds.  Details are taken as already encoded text, addresses as
    dotted strings, and the dataset knows one address. *)
Definition spec_externals : Externals := {|
  STATUS_QUEUED := "queued";
  EVENT_SENT := "sent";
  EVENT_SENDING_ERROR := "sending-error";
  EVENT_OPENED := "opened";
  EVENT_CLICKED := "clicked";
  EVENT_DATA_SUBMIT := "submitted-data";
  EVENT_REPORTED := "reported";
  STATUS_RETRY := "retry";
  ERROR := "sending-error";
  EventDetails := string;
  json_Marshal := fun p => match p with EventError e => Ok e | Details d => Ok d end;
  net_IP := string;
  net_ParseIP := fun s => if (s =? "203.0.113.7")%string then Some s else None;
  Reader := unit;
  maxminddb_Open := fun _ => Ok tt;
  Lookup := fun _ ip =>
    match ip with
    | Some _ => Ok (mkCity (mkGeoPoint 48.5%float 2.25%float))
    | None => Err (ErrOther "ipAddress passed to Lookup cannot be nil")
    end
|}.

(** The same setting with the dataset file missing. *)
Definition no_dataset : Externals := {|
  STATUS_QUEUED := "queued";
  EVENT_SENT := "sent";
  EVENT_SENDING_ERROR := "sending-error";
  EVENT_OPENED := "opened";
  EVENT_CLICKED := "clicked";
  EVENT_DATA_SUBMIT := "submitted-data";
  EVENT_REPORTED := "reported";
  STATUS_RETRY := "retry";
  ERROR := "sending-error";
  EventDetails := string;
  json_Marshal := fun p => match p with EventError e => Ok e | Details d => Ok d end;
  net_IP := string;
  net_ParseIP := fun s => Some s;
  Reader := unit;
  maxminddb_Open := fun _ =>
    Err (ErrOther "open static/db/geolite2-city.mmdb: no such file or directory");
  Lookup := fun _ _ => Ok (mkCity (mkGeoPoint 48.5%float 2.25%float))
|}.

Definition jane : Result :=
  mkResult 1 10 100 "aB3dE9z" "jane@example.com" "Jane" "Doe" "Engineer"
           "queued" "" 0%float 0%float 1000 false 1000.

Definition campaign10 : Campaign.t := Campaign.mk 10 100.

Definition world0 : World := mkWorld [campaign10] [] [jane].

Definition calm (t : time_Time) : Env := mkEnv t None None.

Definition jane_at (status : string) : Result := set_Status status jane.

Definition world_at (status : string) : World :=
  mkWorld [campaign10] [] [jane_at status].

(** A record whose campaign is not in the database. *)
Definition orphan : Result :=
  mkResult 2 77 100 "Qr5tUv8" "sam@example.com" "Sam" "Roe" "Analyst"
           "clicked" "" 0%float 0%float 1000 false 1000.

(** A moment at which the database refuses the event write. *)
Definition locked (t : time_Time) : Env :=
  mkEnv t (Some (ErrOther "database is locked")) None.

(** The path [UpdateGeo] opens. *)
Definition geolite2 : string := "static/db/geolite2-city.mmdb".

(** A source whose draws walk through the alphabet, and a table that
    already holds the first identifier it produces. *)
Definition walking : IdEnv :=
  mkIdEnv (fun i _ => Ok (Z.of_nat ((i * 7 + 3) mod 62))) (fun _ => None).

Definition taken : World :=
  mkWorld [campaign10] [] [set_RId "dkryFMT" jane].

(** Operations in that setting: a tracking pixel request, a link followed,
    a form posted, the report button pressed. *)
Definition open_pixel : @transition spec_externals :=
  @MarkOpened spec_externals "pixel".

Definition click_link : @transition spec_externals :=
  @MarkClicked spec_externals "link".

Definition submit_form : @transition spec_externals :=
  @MarkSubmitted spec_externals "form".

Definition report_button : @transition spec_externals :=
  @MarkReported spec_externals "button".

(** ** Lookup by identifier and the mail address *)

(** The zero value [Result{}]. *)
Definition zero_Result : Result :=
  mkResult 0 0 0 "" "" "" "" "" "" "" 0%float 0%float 0 false 0.

(** The row [First] picks among the rows matched: the one with the least
    primary key. *)
Fixpoint least (rows : list Result) : option Result :=
  match rows with
  | [] => None
  | x :: rest =>
    match least rest with
    | None => Some x
    | Some y => if Id x <=? Id y then Some x else Some y
    end
  end.

(** [GetResult]: [db.Where("r_id=?", rid).First(&r).Error], with the record
    left at its zero value when nothing is read. *)
Definition GetResult (failure : option error) (rid : string) (w : World)
  : Result * option error :=
  match failure with
  | Some e => (zero_Result, Some e)
  | None =>
    match least (filter (fun x => (RId x =? rid)%string) (results w)) with
    | Some x => (x, None)
    | None => (zero_Result, Some ErrRecordNotFound)
    end
  end.

Section Address.
(** [(&mail.Address{Name, Address}).String()], of Go's [net/mail]. *)
Variable mail_Address_String : string -> string -> string.

(** [FormatAddress]: the display form when both names are there, the bare
    email otherwise.  [fmt.Sprintf("%s %s", a, b)] puts one space between. *)
Definition FormatAddress (r : Result) : string :=
  if negb (FirstName r =? "")%string && negb (LastName r =? "")%string
  then mail_Address_String (FirstName r ++ " " ++ LastName r)%string (Email r)
  else Email r.

End Address.

(** The fields no status operation is meant to write. *)
Definition same_target (r r' : Result) : Prop :=
  Id r' = Id r /\ CampaignId r' = CampaignId r /\ UserId r' = UserId r /\
  RId r' = RId r /\ Email r' = Email r /\ FirstName r' = FirstName r /\
  LastName r' = LastName r /\ Position r' = Position r /\ IP r' = IP r /\
  Latitude r' = Latitude r /\ Longitude r' = Longitude r.

(** The setting of [spec_externals] with an encoder that refuses empty
    details. *)
Definition picky : Externals := {|
  STATUS_QUEUED := "queued";
  EVENT_SENT := "sent";
  EVENT_SENDING_ERROR := "sending-error";
  EVENT_OPENED := "opened";
  EVENT_CLICKED := "clicked";
  EVENT_DATA_SUBMIT := "submitted-data";
  EVENT_REPORTED := "reported";
  STATUS_RETRY := "retry";
  ERROR := "sending-error";
  EventDetails := string;
  json_Marshal := fun p =>
    match p with
    | EventError e => Ok e
    | Details d =>
      if (d =? "")%string then Err (ErrOther "json: unsupported value")
      else Ok d
    end;
  net_IP := string;
  net_ParseIP := fun s => Some s;
  Reader := unit;
  maxminddb_Open := fun _ => Ok tt;
  Lookup := fun _ _ => Err (ErrOther "unexpected end of database")
|}.

(** A moment at which the database refuses the row write. *)
Definition readonly (t : time_Time) : Env :=
  mkEnv t None (Some (ErrOther "attempt to write a readonly database")).

(** Another recipient of the same campaign, and a table holding both. *)
Definition sam : Result :=
  mkResult 2 10 100 "Qr5tUv8" "sam@example.com" "Sam" "" "Analyst"
           "sent" "" 0%float 0%float 1000 false 1000.

Definition both : World := mkWorld [campaign10] [] [jane; sam].

(** A database that answers every uniqueness query with a failure. *)
Definition unreachable : IdEnv :=
  mkIdEnv (fun i _ => Ok (Z.of_nat ((i * 7 + 3) mod 62)))
          (fun _ => Some (ErrOther "connection refused")).

(** A random source that fails at its ninth draw. *)
Definition drained : IdEnv :=
  mkIdEnv (fun i _ => if (i <? 8)%nat then Ok (Z.of_nat ((i * 7 + 3) mod 62))
                      else Err (ErrOther "unexpected EOF"))
          (fun _ => None).

(** A display form that quotes the name. *)
Definition quoting (name addr : string) : string :=
  (String "034" name ++ String "034" (" <" ++ addr ++ ">"))%string.

(** The contract of the dataset reader on a [nil] address: [Lookup] returns
    an error and decodes nothing. *)
Definition reader_rejects_nil {X : Externals} : Prop :=
  forall mmdb : Reader, exists err, Lookup mmdb None = Err err.

Definition set_Id (key : Z) (r : Result) : Result :=
  mkResult key (CampaignId r) (UserId r) (RId r) (Email r) (FirstName r)
    (LastName r) (Position r) (Status r) (IP r) (Latitude r) (Longitude r)
    (SendDate r) (Reported r) (ModifiedDate r).

(** [db.Save(r)] on both of its paths, with the struct as the caller sees
    it afterwards.  A record whose primary key is 0 was never stored: the
    database inserts a new row under the key it assigns, [key], and that key
    is written into the struct.  Any other record is written in place. *)
Definition gorm_Save (env : Env) (key : Z) (r : Result) (w : World)
  : World * Result * option error :=
  if Id r =? 0 then
    match result_save env with
    | None =>
      (mkWorld (campaigns w) (events w) (results w ++ [set_Id key r]),
       set_Id key r, None)
    | Some err => (w, r, Some err)
    end
  else save_and_return env r w.

(** A recipient about to be added to the campaign: no primary key, no
    identifier yet. *)
Definition newcomer : Result :=
  mkResult 0 10 100 "" "ana@example.com" "Ana" "Lee" "Clerk"
           "queued" "" 0%float 0%float 1000 false 1000.

(** ** Basic facts *)

Lemma put_row_get (r : Result) (rows : list Result) :
  get_row (Id r) (put_row r rows) = Some r.
Proof.
  unfold get_row.
  induction rows as [|x rows IH]; simpl.
  - now rewrite Z.eqb_refl.
  - destruct (Id x =? Id r) eqn:E; simpl.
    + now rewrite Z.eqb_refl.
    + now rewrite E.
Qed.

Section HandlerFacts.
Context {X : Externals}.

(** [createEvent] in one equation: the two failures that end it early, and
    the append. *)
Lemma createEvent_eq (w : World) (env : Env) (r : Result) (status : string)
    (details : option (payload EventDetails)) :
  createEvent w env r status details =
  match GetCampaign w (CampaignId r) (UserId r) with
  | Err err => (w, Err err)
  | Ok c =>
    match encode details with
    | Err err => (w, Err err)
    | Ok dj =>
      (appended env (recorded env c r status dj) w,
       Ok (recorded env c r status dj))
    end
  end.
Proof.
  unfold createEvent, encode, appended, recorded, AddEvent.
  destruct (GetCampaign w (CampaignId r) (UserId r)) as [c|err]; [|reflexivity].
  destruct details as [d|]; simpl.
  - destruct (json_Marshal d) as [dj|err]; [|reflexivity].
    simpl. now destruct (event_save env).
  - now destruct (event_save env).
Qed.

Lemma appended_tables (env : Env) (e : Event.t) (w : World) :
  campaigns (appended env e w) = campaigns w /\
  results (appended env e w) = results w.
Proof. unfold appended. now destruct (event_save env). Qed.

Lemma GetCampaign_appended (env : Env) (e : Event.t) (w : World) (id uid : Z) :
  GetCampaign (appended env e w) id uid = GetCampaign w id uid.
Proof.
  unfold GetCampaign. now rewrite (proj1 (appended_tables env e w)).
Qed.

Lemma save_and_return_eq (env : Env) (r : Result) (w : World) :
  save_and_return env r w =
  match result_save env with
  | None => (mkWorld (campaigns w) (events w) (put_row r (results w)), r, None)
  | Some err => (w, r, Some err)
  end.
Proof. unfold save_and_return, db_Save. now destruct (result_save env). Qed.

(** Every operation starts with the same [createEvent] call, then checks
    its guard, then writes. *)
Lemma transit_eq (t : transition) (w : World) (env : Env) (r : Result) :
  transit t w env r =
  match createEvent w env r (kind_of t) (details_of t) with
  | (w1, Err err) => (w1, r, Some err)
  | (w1, Ok event) =>
    if guarded t (Status r) then (w1, r, None)
    else save_and_return env (written t (Event.Time event) r) w1
  end.
Proof.
  destruct t; simpl;
    unfold HandleEmailSent, HandleEmailError, HandleEmailBackoff,
      HandleEmailOpened, HandleClickedLink, HandleFormSubmit,
      HandleEmailReport;
    destruct (createEvent _ _ _ _ _) as [w1 [event|failure]]; reflexivity.
Qed.

(** An operation whose campaign exists and whose details encode. *)
Lemma transit_ok (t : transition) (w : World) (env : Env) (r : Result)
    (c : Campaign.t) (dj : string) :
  GetCampaign w (CampaignId r) (UserId r) = Ok c ->
  encode (details_of t) = Ok dj ->
  transit t w env r =
  if guarded t (Status r)
  then (appended env (recorded env c r (kind_of t) dj) w, r, None)
  else save_and_return env (written t (now env) r)
         (appended env (recorded env c r (kind_of t) dj) w).
Proof.
  intros Hc Hd. rewrite transit_eq, createEvent_eq, Hc, Hd. reflexivity.
Qed.

(** No operation touches the campaigns or the identity of its receiver. *)
Lemma transit_frame (t : transition) (w : World) (env : Env) (r : Result) :
  campaigns (fst (fst (transit t w env r))) = campaigns w /\
  CampaignId (snd (fst (transit t w env r))) = CampaignId r /\
  UserId (snd (fst (transit t w env r))) = UserId r /\
  Email (snd (fst (transit t w env r))) = Email r /\
  Id (snd (fst (transit t w env r))) = Id r.
Proof.
  rewrite transit_eq, createEvent_eq.
  destruct (GetCampaign _ _ _) as [c|err]; [|now simpl].
  destruct (encode _) as [dj|err]; [|now simpl].
  destruct (guarded t (Status r)).
  - simpl. now rewrite (proj1 (appended_tables _ _ _)).
  - rewrite save_and_return_eq.
    destruct (result_save env); simpl;
      rewrite ?(proj1 (appended_tables _ _ _)); destruct t; now simpl.
Qed.

Lemma GetCampaign_transit (t : transition) (w : World) (env : Env)
    (r : Result) :
  GetCampaign (fst (fst (transit t w env r)))
              (CampaignId (snd (fst (transit t w env r))))
              (UserId (snd (fst (transit t w env r)))) =
  GetCampaign w (CampaignId r) (UserId r).
Proof.
  destruct (transit_frame t w env r) as (Hc & Hi & Hu & _).
  unfold GetCampaign. now rewrite Hc, Hi, Hu.
Qed.

End HandlerFacts.

(** ** Failure of the campaign lookup *)

(** C9.  For every transition operation, when the lookup of the owning
    campaign fails, the operation returns that error and nothing else
    happens: the database (event log and rows) and the receiver, with its
    status, reported flag, send date and modified date, are as before. *)
Theorem campaign_lookup_failure_is_atomic {X : Externals}
    (t : transition) (w : World) (env : Env) (r : Result) (err : error) :
  GetCampaign w (CampaignId r) (UserId r) = Err err ->
  transit t w env r = (w, r, Some err).
Proof.
  intros H. now rewrite transit_eq, createEvent_eq, H.
Qed.

Lemma campaign_lookup_failure_witness :
  GetCampaign world0 (CampaignId orphan) (UserId orphan) = Err ErrRecordNotFound /\
  transit open_pixel world0 (calm 2000) orphan =
    (world0, orphan, Some ErrRecordNotFound).
Proof.
  split; [reflexivity|].
  apply (campaign_lookup_failure_is_atomic (X := spec_externals)).
  reflexivity.
Defined.

(** ** The guards *)

(** C3.  With the campaign found and the details encoded,
    [HandleEmailOpened] leaves the record as it is and returns no error when
    the status is clicked or submitted-data, and sets the status to opened
    otherwise; [HandleClickedLink] leaves the record as it is and returns no
    error when the status is submitted-data, and sets the status to clicked
    otherwise.  In the guarded case no row is written; in the other case the
    row written is the receiver. *)
Theorem opened_and_clicked_guards {X : Externals}
    (w : World) (env : Env) (r : Result) (d : EventDetails)
    (c : Campaign.t) (dj : string) :
  GetCampaign w (CampaignId r) (UserId r) = Ok c ->
  json_Marshal (Details d) = Ok dj ->
  (forall w' r' err, HandleEmailOpened w env r d = (w', r', err) ->
     (Status r = EVENT_CLICKED \/ Status r = EVENT_DATA_SUBMIT ->
        r' = r /\ err = None /\ results w' = results w) /\
     (Status r <> EVENT_CLICKED -> Status r <> EVENT_DATA_SUBMIT ->
        Status r' = EVENT_OPENED /\ err = result_save env /\
        (err = None -> get_row (Id r) (results w') = Some r'))) /\
  (forall w' r' err, HandleClickedLink w env r d = (w', r', err) ->
     (Status r = EVENT_DATA_SUBMIT ->
        r' = r /\ err = None /\ results w' = results w) /\
     (Status r <> EVENT_DATA_SUBMIT ->
        Status r' = EVENT_CLICKED /\ err = result_save env /\
        (err = None -> get_row (Id r) (results w') = Some r'))).
Proof.
  intros Hc Hd. split; intros w' r' err H.
  - change (transit (MarkOpened d) w env r = (w', r', err)) in H.
    rewrite (transit_ok (MarkOpened d) w env r c dj Hc Hd) in H.
    simpl guarded in H.
    split.
    + intros Hs.
      assert (G : (Status r =? EVENT_CLICKED)%string
                  || (Status r =? EVENT_DATA_SUBMIT)%string = true).
      { apply orb_true_iff. destruct Hs as [Hs|Hs]; [left|right];
          now apply String.eqb_eq. }
      rewrite G in H. inversion H; subst.
      repeat split. apply appended_tables.
    + intros N1 N2.
      apply String.eqb_neq in N1. apply String.eqb_neq in N2.
      rewrite N1, N2 in H. simpl in H. rewrite save_and_return_eq in H.
      destruct (result_save env) as [e|]; inversion H; subst;
        repeat split; try discriminate.
      intros _. simpl. apply (put_row_get (written (MarkOpened d) (now env) r)).
  - change (transit (MarkClicked d) w env r = (w', r', err)) in H.
    rewrite (transit_ok (MarkClicked d) w env r c dj Hc Hd) in H.
    simpl guarded in H.
    split.
    + intros Hs. apply String.eqb_eq in Hs. rewrite Hs in H.
      inversion H; subst. repeat split. apply appended_tables.
    + intros N. apply String.eqb_neq in N. rewrite N in H.
      rewrite save_and_return_eq in H.
      destruct (result_save env) as [e|]; inversion H; subst;
        repeat split; try discriminate.
      intros _. simpl. apply (put_row_get (written (MarkClicked d) (now env) r)).
Qed.

Lemma opened_and_clicked_guards_witness :
  (GetCampaign (world_at "clicked") 10 100 = Ok campaign10 /\
   @json_Marshal spec_externals (Details "pixel") = Ok "pixel") /\
  snd (fst (@HandleEmailOpened spec_externals (world_at "clicked") (calm 2000)
              (jane_at "clicked") "pixel")) = jane_at "clicked" /\
  Status (snd (fst (@HandleClickedLink spec_externals (world_at "clicked")
                      (calm 2000) (jane_at "clicked") "pixel"))) = "clicked".
Proof.
  split; [split; reflexivity|].
  pose proof (@opened_and_clicked_guards spec_externals
                (world_at "clicked") (calm 2000) (jane_at "clicked") "pixel"
                campaign10 "pixel" eq_refl eq_refl) as [HO HC].
  split.
  - exact (proj1 (proj1 (HO _ _ _ eq_refl) (or_introl eq_refl))).
  - refine (proj1 (proj2 (HC _ _ _ eq_refl) _)). discriminate.
Defined.

(** ** Unguarded writes *)

Section Writes.
Context {X : Externals}.

Lemma Id_written (t : transition) (stamp : time_Time) (r : Result) :
  Id (written t stamp r) = Id r.
Proof. now destruct t. Qed.

(** What an operation that passes its guard does, once the campaign is
    found and the details are encoded. *)
Lemma transit_writes (t : transition) (w : World) (env : Env) (r : Result)
    (c : Campaign.t) (dj : string) (w' : World) (r' : Result)
    (err : option error) :
  GetCampaign w (CampaignId r) (UserId r) = Ok c ->
  encode (details_of t) = Ok dj ->
  guarded t (Status r) = false ->
  transit t w env r = (w', r', err) ->
  r' = written t (now env) r /\
  err = result_save env /\
  events w' = events (appended env (recorded env c r (kind_of t) dj) w) /\
  (err = None -> get_row (Id r) (results w') = Some r') /\
  (err <> None -> results w' = results w).
Proof.
  intros Hc Hd Hg H.
  rewrite (transit_ok t w env r c dj Hc Hd), Hg, save_and_return_eq in H.
  destruct (result_save env) as [e|]; inversion H; subst; clear H;
    repeat split; try congruence.
  - intros _. apply appended_tables.
  - intros _. simpl. rewrite <- (Id_written t (now env) r).
    apply put_row_get.
Qed.

(** What a guarded operation does under the same conditions. *)
Lemma transit_skips (t : transition) (w : World) (env : Env) (r : Result)
    (c : Campaign.t) (dj : string) :
  GetCampaign w (CampaignId r) (UserId r) = Ok c ->
  encode (details_of t) = Ok dj ->
  guarded t (Status r) = true ->
  transit t w env r =
  (appended env (recorded env c r (kind_of t) dj) w, r, None).
Proof.
  intros Hc Hd Hg. now rewrite (transit_ok t w env r c dj Hc Hd), Hg.
Qed.

Lemma GetCampaign_after (t : transition) (w : World) (env : Env)
    (r : Result) (w' : World) (r' : Result) (err : option error) :
  transit t w env r = (w', r', err) ->
  GetCampaign w' (CampaignId r') (UserId r') =
  GetCampaign w (CampaignId r) (UserId r).
Proof.
  intros H. pose proof (GetCampaign_transit t w env r) as G.
  now rewrite H in G.
Qed.

End Writes.

(** ** Delivery failure, retry, delivery *)

(** C2.  With the campaign found and the error details encoded,
    [HandleEmailError] sets the status to the error status; a following
    [HandleEmailBackoff] sets it to retry and the send date to the supplied
    next send time; a following [HandleEmailSent] on the same record sets it
    to sent.  Each call returns what its row write returns, and the row
    last written is the record. *)
Theorem send_error_then_retry_then_sent {X : Externals}
    (w : World) (env1 env2 env3 : Env) (r : Result) (e1 e2 : string)
    (next : time_Time) (c : Campaign.t) (j1 j2 : string)
    (w1 w2 w3 : World) (r1 r2 r3 : Result) (x1 x2 x3 : option error) :
  GetCampaign w (CampaignId r) (UserId r) = Ok c ->
  json_Marshal (EventError e1) = Ok j1 ->
  json_Marshal (EventError e2) = Ok j2 ->
  HandleEmailError w env1 r e1 = (w1, r1, x1) ->
  HandleEmailBackoff w1 env2 r1 e2 next = (w2, r2, x2) ->
  HandleEmailSent w2 env3 r2 = (w3, r3, x3) ->
  Status r1 = ERROR /\
  (Status r2 = STATUS_RETRY /\ SendDate r2 = next) /\
  Status r3 = EVENT_SENT /\
  (x1 = result_save env1 /\ x2 = result_save env2 /\ x3 = result_save env3) /\
  (x3 = None -> get_row (Id r) (results w3) = Some r3).
Proof.
  intros Hc Hj1 Hj2 H1 H2 H3.
  change (transit (MarkSendError e1) w env1 r = (w1, r1, x1)) in H1.
  change (transit (MarkBackoff e2 next) w1 env2 r1 = (w2, r2, x2)) in H2.
  change (transit MarkSent w2 env3 r2 = (w3, r3, x3)) in H3.
  pose proof (GetCampaign_after _ _ _ _ _ _ _ H1) as C1. rewrite Hc in C1.
  pose proof (GetCampaign_after _ _ _ _ _ _ _ H2) as C2. rewrite C1 in C2.
  destruct (transit_writes (MarkSendError e1) w env1 r c j1 w1 r1 x1
              Hc Hj1 eq_refl H1) as (R1 & E1 & _).
  destruct (transit_writes (MarkBackoff e2 next) w1 env2 r1 c j2 w2 r2 x2
              C1 Hj2 eq_refl H2) as (R2 & E2 & _).
  destruct (transit_writes MarkSent w2 env3 r2 c "" w3 r3 x3
              C2 eq_refl eq_refl H3) as (R3 & E3 & _ & S3 & _).
  subst r1 r2 r3. repeat split; auto.
Qed.

Lemma send_error_then_retry_then_sent_witness :
  (GetCampaign world0 (CampaignId jane) (UserId jane) = Ok campaign10 /\
   @json_Marshal spec_externals (EventError "550 mailbox busy") = Ok "550 mailbox busy") /\
  Status (snd (fst (@HandleEmailSent spec_externals
    (fst (fst (@HandleEmailBackoff spec_externals
       (fst (fst (@HandleEmailError spec_externals world0 (calm 2000) jane
                    "550 mailbox busy")))
       (calm 3000)
       (snd (fst (@HandleEmailError spec_externals world0 (calm 2000) jane
                    "550 mailbox busy")))
       "550 mailbox busy" 9000)))
    (calm 9500)
    (snd (fst (@HandleEmailBackoff spec_externals
       (fst (fst (@HandleEmailError spec_externals world0 (calm 2000) jane
                    "550 mailbox busy")))
       (calm 3000)
       (snd (fst (@HandleEmailError spec_externals world0 (calm 2000) jane
                    "550 mailbox busy")))
       "550 mailbox busy" 9000)))))) = "sent".
Proof.
  split; [split; reflexivity|].
  exact (proj1 (proj2 (proj2
    (@send_error_then_retry_then_sent spec_externals world0
       (calm 2000) (calm 3000) (calm 9500) jane
       "550 mailbox busy" "550 mailbox busy" 9000 campaign10
       "550 mailbox busy" "550 mailbox busy"
       _ _ _ _ _ _ _ _ _
       eq_refl eq_refl eq_refl eq_refl eq_refl eq_refl)))).
Defined.

(** ** The event log *)

Section EventLog.
Context {X : Externals}.

Lemma events_appended (env : Env) (e : Event.t) (w : World) :
  event_save env = None -> events (appended env e w) = events w ++ [e].
Proof. unfold appended. now intros ->. Qed.

Lemma append_failed (env : Env) (e : Event.t) (w : World) (x : error) :
  event_save env = Some x -> appended env e w = w.
Proof. unfold appended. now intros ->. Qed.

(** The log an operation leaves, guard or no guard. *)
Lemma transit_events (t : transition) (w : World) (env : Env) (r : Result)
    (c : Campaign.t) (dj : string) :
  GetCampaign w (CampaignId r) (UserId r) = Ok c ->
  encode (details_of t) = Ok dj ->
  events (fst (fst (transit t w env r))) =
  events (appended env (recorded env c r (kind_of t) dj) w).
Proof.
  intros Hc Hd. rewrite (transit_ok t w env r c dj Hc Hd).
  destruct (guarded t (Status r)); [reflexivity|].
  rewrite save_and_return_eq. now destruct (result_save env).
Qed.

(** A report never changes the status, whatever else happens. *)
Lemma report_keeps_status (w : World) (env : Env) (r : Result)
    (d : EventDetails) :
  Status (snd (fst (HandleEmailReport w env r d))) = Status r.
Proof.
  change (HandleEmailReport w env r d) with (transit (MarkReported d) w env r).
  rewrite transit_eq.
  destruct (createEvent _ _ _ _ _) as [w1 [event|failure]]; [|reflexivity].
  simpl guarded. cbv iota. rewrite save_and_return_eq.
  now destruct (result_save env).
Qed.

End EventLog.

(** C8.  With the campaign found, the details encoded and the append
    accepted by the database, every transition operation leaves the event log
    extended by exactly its own event, of its own kind, also when its guard
    suppresses the status write: in that case the record is unchanged, the
    operation returns no error, and the event is in the log all the same. *)
Theorem every_operation_records_its_event {X : Externals}
    (t : transition) (w : World) (env : Env) (r : Result)
    (c : Campaign.t) (dj : string) (w' : World) (r' : Result)
    (err : option error) :
  GetCampaign w (CampaignId r) (UserId r) = Ok c ->
  encode (details_of t) = Ok dj ->
  event_save env = None ->
  transit t w env r = (w', r', err) ->
  events w' = events w ++ [Event.mk (Campaign.Id c) (Email r) (now env)
                                    (kind_of t) dj] /\
  (guarded t (Status r) = true -> r' = r /\ err = None).
Proof.
  intros Hc Hd Hs H.
  pose proof (transit_events t w env r c dj Hc Hd) as E.
  rewrite H in E. simpl in E. rewrite (events_appended _ _ _ Hs) in E.
  split; [exact E|].
  intros Hg. rewrite (transit_skips t w env r c dj Hc Hd Hg) in H.
  now inversion H.
Qed.

Lemma every_operation_records_its_event_witness :
  (GetCampaign (world_at "clicked") 10 100 = Ok campaign10 /\
   @encode spec_externals (details_of open_pixel) = Ok "pixel" /\
   @guarded spec_externals open_pixel "clicked" = true) /\
  events (fst (fst (@transit spec_externals open_pixel
                      (world_at "clicked") (calm 2000) (jane_at "clicked")))) =
  [Event.mk 10 "jane@example.com" 2000 "opened" "pixel"].
Proof.
  split; [repeat split; reflexivity|].
  exact (proj1 (@every_operation_records_its_event spec_externals
                  open_pixel (world_at "clicked") (calm 2000)
                  (jane_at "clicked") campaign10 "pixel" _ _ _
                  eq_refl eq_refl eq_refl eq_refl)).
Defined.

(** ** Reports *)

(** C7.  With the campaign found and the details encoded,
    [HandleEmailReport] sets the reported flag and leaves the status as it
    was, whatever the status; a second call leaves the flag set and the
    status still as it was; a successful call writes the row; and when the
    database accepts both appends the log holds one reported event for each
    call. *)
Theorem report_is_independent_and_idempotent {X : Externals}
    (w : World) (env1 env2 : Env) (r : Result) (d1 d2 : EventDetails)
    (c : Campaign.t) (j1 j2 : string)
    (w1 w2 : World) (r1 r2 : Result) (x1 x2 : option error) :
  GetCampaign w (CampaignId r) (UserId r) = Ok c ->
  json_Marshal (Details d1) = Ok j1 ->
  json_Marshal (Details d2) = Ok j2 ->
  HandleEmailReport w env1 r d1 = (w1, r1, x1) ->
  HandleEmailReport w1 env2 r1 d2 = (w2, r2, x2) ->
  (Status r1 = Status r /\ Reported r1 = true) /\
  (Status r2 = Status r /\ Reported r2 = true) /\
  (x1 = None -> get_row (Id r) (results w1) = Some r1) /\
  (event_save env1 = None -> event_save env2 = None ->
   events w2 = events w ++
     [Event.mk (Campaign.Id c) (Email r) (now env1) EVENT_REPORTED j1;
      Event.mk (Campaign.Id c) (Email r) (now env2) EVENT_REPORTED j2]).
Proof.
  intros Hc Hj1 Hj2 H1 H2.
  change (transit (MarkReported d1) w env1 r = (w1, r1, x1)) in H1.
  change (transit (MarkReported d2) w1 env2 r1 = (w2, r2, x2)) in H2.
  pose proof (GetCampaign_after _ _ _ _ _ _ _ H1) as C1. rewrite Hc in C1.
  destruct (transit_writes (MarkReported d1) w env1 r c j1 w1 r1 x1
              Hc Hj1 eq_refl H1) as (R1 & _ & E1 & S1 & _).
  destruct (transit_writes (MarkReported d2) w1 env2 r1 c j2 w2 r2 x2
              C1 Hj2 eq_refl H2) as (R2 & _ & E2 & _).
  subst r1 r2. repeat split; auto.
  intros A1 A2.
  rewrite E2, (events_appended _ _ _ A2), E1, (events_appended _ _ _ A1).
  now rewrite <- app_assoc.
Qed.

Lemma report_is_independent_and_idempotent_witness :
  (GetCampaign (world_at "opened") 10 100 = Ok campaign10 /\
   @json_Marshal spec_externals (Details "button") = Ok "button") /\
  Status (snd (fst (@HandleEmailReport spec_externals
    (fst (fst (@HandleEmailReport spec_externals (world_at "opened")
                 (calm 2000) (jane_at "opened") "button")))
    (calm 3000)
    (snd (fst (@HandleEmailReport spec_externals (world_at "opened")
                 (calm 2000) (jane_at "opened") "button")))
    "button"))) = "opened" /\
  Reported (snd (fst (@HandleEmailReport spec_externals
    (fst (fst (@HandleEmailReport spec_externals (world_at "opened")
                 (calm 2000) (jane_at "opened") "button")))
    (calm 3000)
    (snd (fst (@HandleEmailReport spec_externals (world_at "opened")
                 (calm 2000) (jane_at "opened") "button")))
    "button"))) = true.
Proof.
  split; [split; reflexivity|].
  exact (proj1 (proj2
    (@report_is_independent_and_idempotent spec_externals (world_at "opened")
       (calm 2000) (calm 3000) (jane_at "opened") "button" "button"
       campaign10 "button" "button" _ _ _ _ _ _
       eq_refl eq_refl eq_refl eq_refl eq_refl))).
Defined.

(** ** A failed append *)

(** [createEvent] drops the value [AddEvent] returns: an operation whose
    append failed goes on to write the row and returns what the row write
    returns. *)
Lemma append_failure_is_dropped {X : Externals}
    (t : transition) (w : World) (env : Env) (r : Result)
    (c : Campaign.t) (dj : string) (x : error) (w' : World) (r' : Result)
    (err : option error) :
  GetCampaign w (CampaignId r) (UserId r) = Ok c ->
  encode (details_of t) = Ok dj ->
  event_save env = Some x ->
  guarded t (Status r) = false ->
  transit t w env r = (w', r', err) ->
  err = result_save env /\ events w' = events w /\
  r' = written t (now env) r /\
  (err = None -> get_row (Id r) (results w') = Some r').
Proof.
  intros Hc Hd Hx Hg H.
  destruct (transit_writes t w env r c dj w' r' err Hc Hd Hg H)
    as (R & E & V & S & _).
  rewrite (append_failed _ _ _ _ Hx) in V. auto.
Qed.

(** C4, on the code.  The claim says that a failed event append makes the
    operation return the failure without saving the record.  The code does
    otherwise: with the campaign found and the append refused by the
    database, [HandleEmailSent] returns no error, the event log is still
    empty, and the row is saved with status sent and the new modified
    date. *)
Theorem sent_with_failed_append_still_saves :
  @HandleEmailSent spec_externals world0 (locked 2000) jane =
  (mkWorld [campaign10] []
     [set_ModifiedDate 2000 (set_Status "sent" jane)],
   set_ModifiedDate 2000 (set_Status "sent" jane),
   None).
Proof. reflexivity. Qed.

(** ** The modified date *)

(** C6, amended.  An operation that returns no error and whose guard did not
    suppress the write has set the modified date to the timestamp of the
    event [createEvent] returned, which is the time the event was recorded
    at.  When the guard of [HandleEmailOpened] or [HandleClickedLink]
    suppresses the write, the record is left as it was, modified date
    included. *)
Theorem modified_date_follows_the_write {X : Externals}
    (t : transition) (w : World) (env : Env) (r : Result)
    (w' : World) (r' : Result) :
  transit t w env r = (w', r', None) ->
  (guarded t (Status r) = true -> r' = r) /\
  (guarded t (Status r) = false ->
   exists w1 event,
     createEvent w env r (kind_of t) (details_of t) = (w1, Ok event) /\
     ModifiedDate r' = Event.Time event /\ Event.Time event = now env).
Proof.
  intros H. rewrite transit_eq in H.
  destruct (createEvent w env r (kind_of t) (details_of t))
    as [w1 [event|failure]] eqn:E; [|discriminate].
  split; intros Hg; rewrite Hg in H.
  - now inversion H.
  - rewrite save_and_return_eq in H.
    destruct (result_save env); inversion H; subst; clear H.
    exists w1, event. split; [reflexivity|]. split; [now destruct t|].
    rewrite createEvent_eq in E.
    destruct (GetCampaign _ _ _); [|discriminate].
    destruct (encode _); [|discriminate].
    now inversion E.
Qed.

Lemma modified_date_follows_the_write_witness :
  @transit spec_externals click_link (world_at "opened") (calm 2000)
     (jane_at "opened") =
  (mkWorld [campaign10]
     [Event.mk 10 "jane@example.com" 2000 "clicked" "link"]
     [set_ModifiedDate 2000 (jane_at "clicked")],
   set_ModifiedDate 2000 (jane_at "clicked"), None) /\
  exists w1 event,
    @createEvent spec_externals (world_at "opened") (calm 2000)
      (jane_at "opened") "clicked" (Some (Details "link")) = (w1, Ok event) /\
    ModifiedDate (set_ModifiedDate 2000 (jane_at "clicked")) = Event.Time event /\
    Event.Time event = 2000.
Proof.
  split; [reflexivity|].
  exact (proj2 (@modified_date_follows_the_write spec_externals
                  click_link (world_at "opened") (calm 2000)
                  (jane_at "opened") _ _ eq_refl) eq_refl).
Defined.

(** C6 as stated fails: a guarded [HandleEmailOpened] returns no error and
    records its event at time 2000, and the modified date is still 1000. *)
Lemma guarded_open_keeps_modified_date :
  snd (@transit spec_externals open_pixel (world_at "clicked")
         (calm 2000) (jane_at "clicked")) = None /\
  map Event.Time
    (events (fst (fst (@transit spec_externals open_pixel
                         (world_at "clicked") (calm 2000)
                         (jane_at "clicked"))))) = [2000] /\
  ModifiedDate (snd (fst (@transit spec_externals open_pixel
                            (world_at "clicked") (calm 2000)
                            (jane_at "clicked")))) = 1000.
Proof. repeat split. Qed.

(** ** The funnel *)

Section Funnel.
Context {X : Externals}.

(** An operation either fails early and keeps the status, or leaves
    [status_after]. *)
Lemma transit_status (t : transition) (w : World) (env : Env) (r : Result) :
  Status (snd (fst (transit t w env r))) = Status r \/
  Status (snd (fst (transit t w env r))) = status_after t (Status r).
Proof.
  rewrite transit_eq.
  destruct (createEvent _ _ _ _ _) as [w1 [event|failure]]; [|now left].
  unfold status_after.
  destruct (guarded t (Status r)); [now left|].
  rewrite save_and_return_eq.
  destruct (result_save env); right; now destruct t.
Qed.

(** A guarded operation changes neither the receiver nor the rows. *)
Lemma guarded_keeps_record (t : transition) (w : World) (env : Env)
    (r : Result) :
  guarded t (Status r) = true ->
  snd (fst (transit t w env r)) = r /\
  results (fst (fst (transit t w env r))) = results w.
Proof.
  intros Hg. rewrite transit_eq, createEvent_eq.
  destruct (GetCampaign _ _ _) as [c|e]; [|now simpl].
  destruct (encode _) as [dj|e]; [|now simpl].
  rewrite Hg. simpl. split; [reflexivity|apply appended_tables].
Qed.

Lemma regresses_same (s : string) : regresses s s = false.
Proof.
  unfold regresses. destruct (funnel_rank s); [apply Nat.ltb_irrefl|reflexivity].
Qed.

Hypothesis distinct : statuses_distinct.

Ltac differ i j :=
  apply String.eqb_neq; intros E;
  apply (proj1 (NoDup_nth _ "") distinct i j) in E;
  [discriminate | simpl; lia | simpl; lia].

Ltac unequal a b i j :=
  replace (a =? b)%string with false by (symmetry; differ i j).

Lemma sent_not_queued : (EVENT_SENT =? STATUS_QUEUED)%string = false.
Proof. differ 1%nat 0%nat. Qed.
Lemma opened_not_queued : (EVENT_OPENED =? STATUS_QUEUED)%string = false.
Proof. differ 2%nat 0%nat. Qed.
Lemma opened_not_sent : (EVENT_OPENED =? EVENT_SENT)%string = false.
Proof. differ 2%nat 1%nat. Qed.
Lemma clicked_not_queued : (EVENT_CLICKED =? STATUS_QUEUED)%string = false.
Proof. differ 3%nat 0%nat. Qed.
Lemma clicked_not_sent : (EVENT_CLICKED =? EVENT_SENT)%string = false.
Proof. differ 3%nat 1%nat. Qed.
Lemma clicked_not_opened : (EVENT_CLICKED =? EVENT_OPENED)%string = false.
Proof. differ 3%nat 2%nat. Qed.
Lemma submit_not_queued : (EVENT_DATA_SUBMIT =? STATUS_QUEUED)%string = false.
Proof. differ 4%nat 0%nat. Qed.
Lemma submit_not_sent : (EVENT_DATA_SUBMIT =? EVENT_SENT)%string = false.
Proof. differ 4%nat 1%nat. Qed.
Lemma submit_not_opened : (EVENT_DATA_SUBMIT =? EVENT_OPENED)%string = false.
Proof. differ 4%nat 2%nat. Qed.
Lemma submit_not_clicked : (EVENT_DATA_SUBMIT =? EVENT_CLICKED)%string = false.
Proof. differ 4%nat 3%nat. Qed.

Lemma rank_opened : funnel_rank EVENT_OPENED = Some 2%nat.
Proof.
  unfold funnel_rank, funnel, position.
  now rewrite opened_not_queued, opened_not_sent, String.eqb_refl.
Qed.

Lemma rank_clicked : funnel_rank EVENT_CLICKED = Some 3%nat.
Proof.
  unfold funnel_rank, funnel, position.
  now rewrite clicked_not_queued, clicked_not_sent, clicked_not_opened,
    String.eqb_refl.
Qed.

Lemma rank_submit : funnel_rank EVENT_DATA_SUBMIT = Some 4%nat.
Proof.
  unfold funnel_rank, funnel, position.
  now rewrite submit_not_queued, submit_not_sent, submit_not_opened,
    submit_not_clicked, String.eqb_refl.
Qed.

(** The error and retry statuses are outside the funnel. *)
Lemma rank_error : funnel_rank ERROR = None.
Proof.
  unfold funnel_rank, funnel, position.
  unequal ERROR STATUS_QUEUED 5%nat 0%nat.
  unequal ERROR EVENT_SENT 5%nat 1%nat.
  unequal ERROR EVENT_OPENED 5%nat 2%nat.
  unequal ERROR EVENT_CLICKED 5%nat 3%nat.
  unequal ERROR EVENT_DATA_SUBMIT 5%nat 4%nat.
  reflexivity.
Qed.

Lemma rank_retry : funnel_rank STATUS_RETRY = None.
Proof.
  unfold funnel_rank, funnel, position.
  unequal STATUS_RETRY STATUS_QUEUED 6%nat 0%nat.
  unequal STATUS_RETRY EVENT_SENT 6%nat 1%nat.
  unequal STATUS_RETRY EVENT_OPENED 6%nat 2%nat.
  unequal STATUS_RETRY EVENT_CLICKED 6%nat 3%nat.
  unequal STATUS_RETRY EVENT_DATA_SUBMIT 6%nat 4%nat.
  reflexivity.
Qed.

(** How far down the funnel a status can be, given what it is not. *)
Lemma rank_bound (s : string) (a : nat) :
  funnel_rank s = Some a ->
  (a <= 4)%nat /\
  ((s =? EVENT_DATA_SUBMIT)%string = false -> (a <= 3)%nat) /\
  ((s =? EVENT_CLICKED)%string = false ->
   (s =? EVENT_DATA_SUBMIT)%string = false -> (a <= 2)%nat).
Proof.
  unfold funnel_rank, funnel, position.
  destruct (s =? STATUS_QUEUED)%string;
    [intros [= <-]; repeat split; intros; lia|].
  destruct (s =? EVENT_SENT)%string;
    [intros [= <-]; repeat split; intros; lia|].
  destruct (s =? EVENT_OPENED)%string;
    [intros [= <-]; repeat split; intros; lia|].
  destruct (s =? EVENT_CLICKED)%string;
    [intros [= <-]; repeat split; intros; try lia; discriminate|].
  destruct (s =? EVENT_DATA_SUBMIT)%string;
    [intros [= <-]; repeat split; intros; try lia; discriminate|].
  discriminate.
Qed.

(** One engagement operation moves a funnel stage forward or not at all. *)
Lemma engagement_step (t : transition) (old : string) (a : nat) :
  engagement t = true ->
  funnel_rank old = Some a ->
  exists b, funnel_rank (status_after t old) = Some b /\ (a <= b)%nat.
Proof.
  intros He Ha. destruct (rank_bound old a Ha) as (B4 & B3 & B2).
  unfold status_after.
  destruct (guarded t old) eqn:G; [exists a; auto|].
  destruct t; try discriminate; simpl in G.
  - apply orb_false_iff in G as [G1 G2].
    exists 2%nat. split; [apply rank_opened|auto].
  - exists 3%nat. split; [apply rank_clicked|auto].
  - exists 4%nat. split; [apply rank_submit|auto].
  - exists a. auto.
Qed.

(** No operation but [MarkSent] writes an earlier funnel stage. *)
Lemma status_after_no_regress (t : transition) (old : string) :
  t <> MarkSent -> regresses old (status_after t old) = false.
Proof.
  intros Ht. destruct (engagement t) eqn:He.
  - unfold regresses. destruct (funnel_rank old) as [a|] eqn:Ha; [|reflexivity].
    destruct (engagement_step t old a He Ha) as (b & -> & Hle).
    apply Nat.ltb_ge, Hle.
  - unfold status_after, regresses.
    destruct t; try discriminate; try congruence; simpl;
      rewrite ?rank_error, ?rank_retry; now destruct (funnel_rank old).
Qed.

(** Over a whole run of engagement operations the stage only grows. *)
Lemma engagement_run (ts : list (transition * Env)) :
  Forall (fun p => engagement (fst p) = true) ts ->
  forall (w : World) (r : Result) (a : nat),
    funnel_rank (Status r) = Some a ->
    exists b, funnel_rank (Status (snd (run ts w r))) = Some b /\ (a <= b)%nat.
Proof.
  induction 1 as [|[t env] ts He _ IH]; intros w r a Ha.
  - exists a. auto.
  - simpl. pose proof (transit_status t w env r) as S.
    destruct (transit t w env r) as [[w' r'] err]. simpl in S.
    assert (exists m, funnel_rank (Status r') = Some m /\ (a <= m)%nat)
      as (m & Hm & Ham).
    { destruct S as [-> | ->]; [exists a; auto|].
      now apply engagement_step. }
    destruct (IH w' r' m Hm) as (b & Hb & Hmb).
    exists b. split; [exact Hb|lia].
Qed.

End Funnel.

(** C1, amended.  With pairwise different status values: no transition
    operation other than [MarkSent] moves the status to an earlier funnel
    stage than the current one (the error and retry statuses are outside
    the funnel); [MarkOpened] at clicked or submitted-data, and [MarkClicked]
    at submitted-data, leave the record and the stored rows unchanged; and
    over any sequence of [MarkOpened], [MarkClicked], [MarkSubmitted] and
    [MarkReported] operations the funnel stage of the status never
    decreases.  [MarkSent] has no guard: with the campaign found it sets the
    status to sent from any status. *)
Theorem funnel_is_monotone_past_delivery {X : Externals}
    (distinct : statuses_distinct) :
  (forall t w env r,
     t <> MarkSent ->
     regresses (Status r) (Status (snd (fst (transit t w env r)))) = false) /\
  (forall d w env r,
     Status r = EVENT_CLICKED \/ Status r = EVENT_DATA_SUBMIT ->
     snd (fst (transit (MarkOpened d) w env r)) = r /\
     results (fst (fst (transit (MarkOpened d) w env r))) = results w) /\
  (forall d w env r,
     Status r = EVENT_DATA_SUBMIT ->
     snd (fst (transit (MarkClicked d) w env r)) = r /\
     results (fst (fst (transit (MarkClicked d) w env r))) = results w) /\
  (forall ts w r a,
     Forall (fun p => engagement (fst p) = true) ts ->
     funnel_rank (Status r) = Some a ->
     exists b, funnel_rank (Status (snd (run ts w r))) = Some b /\ (a <= b)%nat) /\
  (forall w env r c,
     GetCampaign w (CampaignId r) (UserId r) = Ok c ->
     Status (snd (fst (transit MarkSent w env r))) = EVENT_SENT).
Proof.
  split; [|split; [|split; [|split]]].
  - intros t w env r Ht.
    destruct (transit_status t w env r) as [-> | ->].
    + apply regresses_same.
    + now apply status_after_no_regress.
  - intros d w env r H. apply guarded_keeps_record. simpl.
    apply orb_true_iff.
    destruct H as [H|H]; [left|right]; now apply String.eqb_eq.
  - intros d w env r H. apply guarded_keeps_record. simpl.
    now apply String.eqb_eq.
  - intros ts w r a HF Ha. exact (engagement_run distinct ts HF w r a Ha).
  - intros w env r c Hc.
    rewrite (transit_ok MarkSent w env r c "" Hc eq_refl). simpl guarded.
    cbv iota. rewrite save_and_return_eq. now destruct (result_save env).
Qed.

Lemma spec_statuses_distinct : @statuses_distinct spec_externals.
Proof.
  unfold statuses_distinct.
  repeat constructor; simpl; intuition discriminate.
Defined.

Lemma funnel_is_monotone_past_delivery_witness :
  @statuses_distinct spec_externals /\
  @regresses spec_externals "clicked"
    (Status (snd (fst (@transit spec_externals open_pixel
                         (world_at "clicked") (calm 2000)
                         (jane_at "clicked"))))) = false /\
  exists b,
    @funnel_rank spec_externals
      (Status (snd (@run spec_externals
         [(click_link, calm 2000); (open_pixel, calm 2100);
          (submit_form, calm 2200); (click_link, calm 2300);
          (report_button, calm 2400)]
         (world_at "opened") (jane_at "opened")))) = Some b /\ (2 <= b)%nat.
Proof.
  split; [exact spec_statuses_distinct|].
  pose proof (@funnel_is_monotone_past_delivery spec_externals
                spec_statuses_distinct) as (Step & _ & _ & Run & _).
  split.
  - refine (Step open_pixel (world_at "clicked")
              (calm 2000) (jane_at "clicked") _).
    discriminate.
  - apply Run; [|reflexivity].
    repeat constructor.
Defined.

(** C1 as stated fails: the record is at clicked, [MarkSent] arrives, and the
    status, in the receiver and in the stored row, is sent, an earlier
    funnel stage. *)
Lemma sent_after_click_regresses :
  Status (jane_at "clicked") = "clicked" /\
  Status (snd (fst (@transit spec_externals MarkSent (world_at "clicked")
                      (calm 2000) (jane_at "clicked")))) = "sent" /\
  option_map Status
    (get_row 1 (results (fst (fst (@transit spec_externals MarkSent
                                     (world_at "clicked") (calm 2000)
                                     (jane_at "clicked")))))) = Some "sent" /\
  @regresses spec_externals "clicked" "sent" = true.
Proof. repeat split. Qed.

(** ** Geolocation *)

(** C5, amended.  When the dataset opens, the string parses and the lookup
    succeeds, [UpdateGeo] sets the IP to the string and the coordinates to
    the ones looked up, keeps every other field, and saves the record.  When
    the string does not parse as an IP address, [UpdateGeo] fails, with the
    error by which the dataset reader rejects the nil address, and leaves
    the IP, the coordinates, the rest of the record and the database
    untouched.  When the dataset cannot be opened the process ends in
    [log.Fatal]; no error comes back to the caller. *)
Theorem UpdateGeo_by_cases {X : Externals}
    (w : World) (env : Env) (r : Result) (addr : string) :
  (forall mmdb ip city,
     maxminddb_Open geolite2 = Ok mmdb ->
     net_ParseIP addr = Some ip ->
     Lookup mmdb (Some ip) = Ok city ->
     exists w' r',
       UpdateGeo w env r addr = Returns (w', r', result_save env) /\
       (IP r' = addr /\
        Latitude r' = gp_Latitude (GeoPoint city) /\
        Longitude r' = gp_Longitude (GeoPoint city)) /\
       (Status r' = Status r /\ Reported r' = Reported r /\
        ModifiedDate r' = ModifiedDate r /\ RId r' = RId r) /\
       (result_save env = None -> get_row (Id r) (results w') = Some r') /\
       (result_save env <> None -> w' = w)) /\
  (forall mmdb,
     maxminddb_Open geolite2 = Ok mmdb ->
     reader_rejects_nil ->
     net_ParseIP addr = None ->
     exists err,
       UpdateGeo w env r addr = Returns (w, r, Some err) /\
       Lookup mmdb None = Err err) /\
  (forall err,
     maxminddb_Open geolite2 = Err err ->
     UpdateGeo w env r addr = Exits).
Proof.
  unfold UpdateGeo, geolite2. split; [|split].
  - intros mmdb ip city -> -> ->.
    rewrite save_and_return_eq.
    destruct (result_save env) as [e|]; eexists; eexists;
      (split; [reflexivity|]); repeat split; try congruence.
    intros _. simpl.
    apply (put_row_get (set_Geo addr (gp_Latitude (GeoPoint city))
                          (gp_Longitude (GeoPoint city)) r)).
  - intros mmdb -> Rej ->. destruct (Rej mmdb) as (err & E).
    exists err. now rewrite E.
  - now intros err ->.
Qed.

Lemma UpdateGeo_by_cases_witness :
  (@maxminddb_Open spec_externals geolite2 = Ok tt /\
   @net_ParseIP spec_externals "203.0.113.7" = Some "203.0.113.7" /\
   @net_ParseIP spec_externals "not an address" = None /\
   @reader_rejects_nil spec_externals) /\
  (exists w' r',
     @UpdateGeo spec_externals world0 (calm 2000) jane "203.0.113.7" =
       Returns (w', r', None) /\
     (IP r' = "203.0.113.7" /\
      Latitude r' = 48.5%float /\ Longitude r' = 2.25%float) /\
     get_row 1 (results w') = Some r') /\
  (exists err,
     @UpdateGeo spec_externals world0 (calm 2000) jane "not an address" =
       Returns (world0, jane, Some err)) /\
  @UpdateGeo no_dataset world0 (calm 2000) jane "203.0.113.7" = Exits.
Proof.
  assert (Rej : @reader_rejects_nil spec_externals)
    by (intros mmdb; eexists; reflexivity).
  split; [repeat split; exact Rej|]. split; [|split].
  - destruct (proj1 (@UpdateGeo_by_cases spec_externals world0 (calm 2000)
                       jane "203.0.113.7")
                tt "203.0.113.7" _ eq_refl eq_refl eq_refl)
      as (w' & r' & E & G & _ & S & _).
    exists w', r'. split; [exact E|]. split; [exact G|exact (S eq_refl)].
  - destruct (proj1 (proj2 (@UpdateGeo_by_cases spec_externals world0
                              (calm 2000) jane "not an address"))
                tt eq_refl Rej eq_refl) as (err & E & _).
    now exists err.
  - exact (proj2 (proj2 (@UpdateGeo_by_cases no_dataset world0 (calm 2000)
                           jane "203.0.113.7"))
             _ eq_refl).
Defined.

(** C5 as stated fails: with the dataset file missing the call does not
    return an error, it ends the process. *)
Lemma missing_dataset_ends_the_process :
  @maxminddb_Open no_dataset geolite2 =
    Err (ErrOther "open static/db/geolite2-city.mmdb: no such file or directory") /\
  @UpdateGeo no_dataset world0 (calm 2000) jane "203.0.113.7" = Exits /\
  (forall h : handled,
     @UpdateGeo no_dataset world0 (calm 2000) jane "203.0.113.7" <> Returns h).
Proof. repeat split. discriminate. Qed.

(** ** Identifiers *)

Lemma get_alphaNum (n : nat) (c : ascii) :
  String.get n alphaNum = Some c ->
  (n < 62)%nat /\ alphanumeric c = true /\ code_index c = n.
Proof.
  do 62 (destruct n as [|n];
         [intros [= <-]; split; [lia|split; reflexivity]|]).
  discriminate.
Qed.

Lemma get_alphaNum_total (n : nat) :
  (n < 62)%nat -> exists c, String.get n alphaNum = Some c.
Proof.
  do 62 (destruct n as [|n]; [intros _; eexists; reflexivity|]).
  lia.
Qed.

Lemma byte_at_alphaNum (idx : Z) (c : ascii) :
  byte_at alphaNum idx = Some c ->
  0 <= idx < 62 /\ alphanumeric c = true /\ Z.of_nat (code_index c) = idx.
Proof.
  unfold byte_at. destruct (idx <? 0) eqn:N; [discriminate|].
  apply Z.ltb_ge in N. intros H.
  destruct (get_alphaNum _ _ H) as (L & A & I).
  repeat split; try lia; auto.
Qed.

Lemma byte_at_total (idx : Z) :
  0 <= idx < 62 -> exists c, byte_at alphaNum idx = Some c.
Proof.
  intros R. unfold byte_at.
  replace (idx <? 0) with false by (symmetry; apply Z.ltb_ge; lia).
  apply get_alphaNum_total. lia.
Qed.

(** Different indices give different symbols: the symbol is as evenly
    distributed as the index drawn. *)
Lemma byte_at_injective (i j : Z) (c : ascii) :
  byte_at alphaNum i = Some c -> byte_at alphaNum j = Some c -> i = j.
Proof.
  intros Hi Hj.
  apply byte_at_alphaNum in Hi. apply byte_at_alphaNum in Hj. lia.
Qed.

Lemma alphanumeric_in_alphaNum (c : ascii) :
  alphanumeric c = existsb (Ascii.eqb c) (list_ascii_of_string alphaNum).
Proof. destruct c as [[] [] [] [] [] [] [] []]; reflexivity. Qed.

Lemma length_string_of_list (k : list ascii) :
  String.length (string_of_list_ascii k) = length k.
Proof. induction k; simpl; congruence. Qed.

Lemma get_string_of_list (k : list ascii) (i : nat) :
  String.get i (string_of_list_ascii k) = nth_error k i.
Proof.
  revert i. induction k as [|c k IH]; intros [|i]; simpl; auto.
Qed.

(** A key the inner loop completes: one symbol per position, each the
    symbol at the index drawn for that position. *)
Lemma draw_key_ok (ie : IdEnv) (n calls : nat) (k : list ascii) :
  draw_key ie n calls = Returns (Ok k) ->
  length k = n /\
  forall i, (i < n)%nat ->
    exists idx c,
      rand_Int ie (calls + i)%nat 62 = Ok idx /\
      byte_at alphaNum idx = Some c /\ nth_error k i = Some c.
Proof.
  revert calls k. induction n as [|n IH]; intros calls k; simpl.
  - intros [= <-]. split; [reflexivity|]. intros i Hi. lia.
  - change (Z.pos _) with 62.
    destruct (rand_Int ie calls 62) as [idx|e] eqn:R; [|discriminate].
    destruct (byte_at alphaNum idx) as [c|] eqn:B; [|discriminate].
    destruct (draw_key ie n (S calls)) as [[k'|e]| |] eqn:D; try discriminate.
    intros [= <-]. destruct (IH _ _ D) as (L & P).
    split; [simpl; congruence|].
    intros [|i] Hi.
    + exists idx, c. rewrite Nat.add_0_r. auto.
    + destruct (P i ltac:(lia)) as (idx' & c' & R' & B' & N').
      exists idx', c'. rewrite Nat.add_succ_r. auto.
Qed.

Lemma draw_key_total (ie : IdEnv) (n calls : nat) :
  draws_in_range ie -> exists k, draw_key ie n calls = Returns (Ok k).
Proof.
  intros H. revert calls. induction n as [|n IH]; intros calls; simpl.
  - now exists [].
  - change (Z.pos _) with 62.
    destruct (H calls) as (idx & -> & R).
    destruct (byte_at_total idx R) as (c & ->).
    destruct (IH (S calls)) as (k & ->). now exists (c :: k).
Qed.

Lemma GenerateId_from_success (fuel : nat) (ie : IdEnv) (w : World) :
  forall (attempt : nat) (r r' : Result),
    GenerateId_from fuel ie w attempt r = Some (Returns (r', None)) ->
    exists n k,
      RId r' = string_of_list_ascii k /\
      draw_key ie 7 (7 * n) = Returns (Ok k) /\
      db_First_by_r_id (query_error ie n) (RId r') w = Some ErrRecordNotFound /\
      r' = set_RId (RId r') r.
Proof.
  induction fuel as [|fuel IH]; intros attempt r r'; [discriminate|].
  cbn [GenerateId_from].
  destruct (draw_key ie 7 (7 * attempt)) as [[k|e]| |] eqn:D; try discriminate.
  cbn zeta.
  destruct (db_First_by_r_id _ _ w) as [[|m]|] eqn:Q.
  - intros [= <-]. exists attempt, k. now repeat split.
  - intros H. destruct (IH _ _ _ H) as (n & k' & E & D' & Q' & S').
    exists n, k'. repeat split; auto.
  - intros H. destruct (IH _ _ _ H) as (n & k' & E & D' & Q' & S').
    exists n, k'. repeat split; auto.
Qed.

Lemma GenerateId_from_returns (ie : IdEnv) (w : World) :
  draws_in_range ie ->
  forall (n start : nat) (r : Result),
    free ie w (start + n) ->
    exists r', GenerateId_from (S n) ie w start r = Some (Returns (r', None)).
Proof.
  intros H. induction n as [|n IH]; intros start r F.
  - rewrite Nat.add_0_r in F. destruct F as (k & D & Q).
    cbn [GenerateId_from]. rewrite D. cbn zeta. cbn [RId set_RId].
    rewrite Q. eauto.
  - destruct (draw_key_total ie 7 (7 * start) H) as (k & D).
    remember (S n) as fuel. cbn [GenerateId_from]. rewrite D. cbn zeta.
    destruct (db_First_by_r_id _ _ w) as [[|m]|]; eauto;
      subst fuel; apply IH; now rewrite <- Nat.add_succ_comm in F.
Qed.

(** C10.  Whenever [GenerateId] returns without error, the identifier it
    left in the record has exactly 7 characters, each one of the 62
    alphanumeric symbols a-z, A-Z, 0-9; each character is the symbol of
    [alphaNum] at the index that one call of [rand.Int] on the secure source
    drew below 62, and different indices give different symbols, so a
    character is as evenly distributed as its draw.  The call does return
    when the draws succeed and some attempt finds its identifier free. *)
Theorem generated_identifier_shape :
  (forall fuel ie w r r',
     GenerateId fuel ie w r = Some (Returns (r', None)) ->
     String.length (RId r') = 7%nat /\
     (forall c, In c (list_ascii_of_string (RId r')) -> alphanumeric c = true) /\
     exists attempt,
       forall i, (i < 7)%nat ->
         exists idx,
           rand_Int ie (7 * attempt + i)%nat 62 = Ok idx /\
           0 <= idx < 62 /\
           String.get i (RId r') = byte_at alphaNum idx) /\
  (String.length alphaNum = 62%nat /\
   (forall c, alphanumeric c = true <-> In c (list_ascii_of_string alphaNum)) /\
   (forall i j c,
      byte_at alphaNum i = Some c -> byte_at alphaNum j = Some c -> i = j) /\
   (forall i, 0 <= i < 62 -> exists c, byte_at alphaNum i = Some c)) /\
  (forall ie w r n,
     draws_in_range ie -> free ie w n ->
     exists r', GenerateId (S n) ie w r = Some (Returns (r', None))).
Proof.
  split; [|split].
  - intros fuel ie w r r' H.
    destruct (GenerateId_from_success fuel ie w 0 r r' H)
      as (n & k & E & D & _ & _).
    destruct (draw_key_ok ie 7 (7 * n) k D) as (L & P).
    rewrite E. split; [|split].
    + now rewrite length_string_of_list.
    + intros c Hc. rewrite list_ascii_of_string_of_list_ascii in Hc.
      apply In_nth_error in Hc as (i & Hi).
      assert (i < 7)%nat as Hlt
        by (rewrite <- L; apply nth_error_Some; congruence).
      destruct (P i Hlt) as (idx & c' & _ & B & N).
      assert (c' = c) by congruence. subst c'.
      now apply byte_at_alphaNum in B.
    + exists n. intros i Hi.
      destruct (P i Hi) as (idx & c & R & B & N).
      exists idx. split; [exact R|]. split.
      * now apply byte_at_alphaNum in B.
      * rewrite get_string_of_list. congruence.
  - split; [reflexivity|]. split; [|split].
    + intros c. rewrite alphanumeric_in_alphaNum, existsb_exists. split.
      * intros (x & Hx & Heq). apply Ascii.eqb_eq in Heq. now subst.
      * intros Hc. exists c. split; [exact Hc|apply Ascii.eqb_refl].
    + exact byte_at_injective.
    + exact byte_at_total.
  - intros ie w r n H F. unfold GenerateId.
    now apply GenerateId_from_returns.
Qed.

Lemma walking_in_range : draws_in_range walking.
Proof.
  intros i. eexists. split; [reflexivity|].
  pose proof (Nat.mod_upper_bound (i * 7 + 3) 62). lia.
Qed.

Lemma generated_identifier_shape_witness :
  GenerateId 2 walking taken jane =
    Some (Returns (set_RId "07elszG" jane, None)) /\
  String.length "07elszG" = 7%nat /\
  exists r', GenerateId 2 walking taken jane = Some (Returns (r', None)).
Proof.
  split; [reflexivity|]. split.
  - exact (proj1 (proj1 generated_identifier_shape 2%nat walking taken jane
                    (set_RId "07elszG" jane) eq_refl)).
  - apply (proj2 (proj2 generated_identifier_shape) walking taken jane 1%nat).
    + exact walking_in_range.
    + eexists. split; reflexivity.
Defined.

(** ** Beyond the status: what an operation touches *)

Lemma put_row_other (r : Result) (rows : list Result) (id : Z) :
  id <> Id r -> get_row id (put_row r rows) = get_row id rows.
Proof.
  intros N. unfold get_row.
  assert (F : (Id r =? id) = false) by (apply Z.eqb_neq; congruence).
  induction rows as [|x rows IH]; simpl.
  - now rewrite F.
  - destruct (Id x =? Id r) eqn:E; simpl.
    + apply Z.eqb_eq in E. rewrite F, E, F. reflexivity.
    + destruct (Id x =? id); [reflexivity|exact IH].
Qed.

Lemma GetCampaign_found (w : World) (id uid : Z) (c : Campaign.t) :
  GetCampaign w id uid = Ok c ->
  In c (campaigns w) /\ Campaign.Id c = id /\ Campaign.UserId c = uid.
Proof.
  unfold GetCampaign.
  destruct (find _ (campaigns w)) as [c'|] eqn:F; [|discriminate].
  intros [= <-]. apply find_some in F as [I E].
  apply andb_true_iff in E as [E1 E2].
  apply Z.eqb_eq in E1. apply Z.eqb_eq in E2. auto.
Qed.

Section Footprint.
Context {X : Externals}.

Lemma written_same_target (t : transition) (stamp : time_Time) (r : Result) :
  same_target r (written t stamp r).
Proof. destruct t; repeat split. Qed.

Lemma same_target_refl (r : Result) : same_target r r.
Proof. repeat split. Qed.

Lemma same_target_trans (a b c : Result) :
  same_target a b -> same_target b c -> same_target a c.
Proof. unfold same_target. intuition congruence. Qed.

(** Everything one operation can do to the database and to its receiver:
    at most one event, of its kind, for its recipient, in its campaign; at
    most one row written, the receiver's own; the receiver kept or
    rewritten. *)
Lemma transit_shape (t : transition) (w : World) (env : Env) (r : Result) :
  exists evs rows r' err,
    transit t w env r = (mkWorld (campaigns w) (events w ++ evs) rows, r', err) /\
    (length evs <= 1)%nat /\
    Forall (fun e => Event.Email e = Email r /\
                     Event.CampaignId e = CampaignId r /\
                     Event.Message e = kind_of t) evs /\
    (rows = results w \/ rows = put_row r' (results w)) /\
    (r' = r \/ r' = written t (now env) r).
Proof.
  assert (Same : forall err : option error,
    exists evs rows r' err',
      (w, r, err) = (mkWorld (campaigns w) (events w ++ evs) rows, r', err') /\
      (length evs <= 1)%nat /\
      Forall (fun e => Event.Email e = Email r /\
                       Event.CampaignId e = CampaignId r /\
                       Event.Message e = kind_of t) evs /\
      (rows = results w \/ rows = put_row r' (results w)) /\
      (r' = r \/ r' = written t (now env) r)).
  { intros err. exists [], (results w), r, err.
    rewrite app_nil_r. destruct w. simpl. repeat split; auto. }
  rewrite transit_eq, createEvent_eq.
  destruct (GetCampaign w (CampaignId r) (UserId r)) as [c|e] eqn:Hc;
    [|apply Same].
  destruct (encode (details_of t)) as [dj|e]; [|apply Same].
  apply GetCampaign_found in Hc as (_ & Hid & _).
  assert (Ev : exists evs,
    appended env (recorded env c r (kind_of t) dj) w =
      mkWorld (campaigns w) (events w ++ evs) (results w) /\
    (length evs <= 1)%nat /\
    Forall (fun e => Event.Email e = Email r /\
                     Event.CampaignId e = CampaignId r /\
                     Event.Message e = kind_of t) evs).
  { unfold appended. destruct (event_save env).
    - exists []. rewrite app_nil_r. destruct w. simpl. repeat split; auto.
    - exists [recorded env c r (kind_of t) dj]. repeat split; auto. }
  destruct Ev as (evs & -> & L & F).
  destruct (guarded t (Status r)).
  - exists evs, (results w), r, None. repeat split; auto.
  - rewrite save_and_return_eq. destruct (result_save env) as [e|]; simpl.
    + exists evs, (results w), (written t (now env) r), (Some e).
      repeat split; auto.
    + exists evs, (put_row (written t (now env) r) (results w)),
        (written t (now env) r), None.
      repeat split; auto.
Qed.

Lemma transit_same_target (t : transition) (w : World) (env : Env)
    (r : Result) :
  same_target r (snd (fst (transit t w env r))).
Proof.
  destruct (transit_shape t w env r) as (evs & rows & r' & err & -> & _ & _ & _ & R).
  simpl. destruct R as [-> | ->];
    [apply same_target_refl|apply written_same_target].
Qed.

Lemma run_same_target (ts : list (transition * Env)) :
  forall (w : World) (r : Result), same_target r (snd (run ts w r)).
Proof.
  induction ts as [|[t env] ts IH]; intros w r; simpl.
  - apply same_target_refl.
  - pose proof (transit_same_target t w env r) as S.
    destruct (transit t w env r) as [[w' r'] err]. simpl in S.
    exact (same_target_trans _ _ _ S (IH w' r')).
Qed.

Lemma Reported_written (t : transition) (stamp : time_Time) (r : Result) :
  Reported r = true -> Reported (written t stamp r) = true.
Proof. now destruct t. Qed.

(** An operation that got past [createEvent] leaves [status_after]; one that
    did not leaves everything as it was. *)
Lemma transit_status_exact (t : transition) (w : World) (env : Env)
    (r : Result) :
  match GetCampaign w (CampaignId r) (UserId r), encode (details_of t) with
  | Ok _, Ok _ =>
    Status (snd (fst (transit t w env r))) = status_after t (Status r)
  | _, _ => transit t w env r = (w, r, Some
      match GetCampaign w (CampaignId r) (UserId r) with
      | Err e => e
      | Ok _ => match encode (details_of t) with Err e => e | Ok _ => ErrRecordNotFound end
      end)
  end.
Proof.
  rewrite transit_eq, createEvent_eq.
  destruct (GetCampaign w (CampaignId r) (UserId r)) as [c|e]; [|reflexivity].
  destruct (encode (details_of t)) as [dj|e]; [|reflexivity].
  unfold status_after.
  destruct (guarded t (Status r)); [reflexivity|].
  rewrite save_and_return_eq. destruct (result_save env); now destruct t.
Qed.

Lemma status_after_idempotent (t : transition) (s : string) :
  status_after t (status_after t s) = status_after t s.
Proof.
  unfold status_after at 2 3.
  destruct (guarded t s) eqn:G.
  - unfold status_after. now rewrite G.
  - unfold status_after.
    destruct t; simpl in *; try reflexivity.
    + now destruct ((EVENT_OPENED =? EVENT_CLICKED)%string
                    || (EVENT_OPENED =? EVENT_DATA_SUBMIT)%string).
    + now destruct (EVENT_CLICKED =? EVENT_DATA_SUBMIT)%string.
Qed.

End Footprint.

(** X1.  When the campaign is found and [json.Marshal] refuses the details,
    the operation returns the encoder's error and nothing else happens: no
    event is appended, no row is written, the receiver keeps every field. *)
Theorem marshal_failure_is_atomic {X : Externals}
    (t : transition) (w : World) (env : Env) (r : Result)
    (c : Campaign.t) (err : error) :
  GetCampaign w (CampaignId r) (UserId r) = Ok c ->
  encode (details_of t) = Err err ->
  transit t w env r = (w, r, Some err).
Proof.
  intros Hc Hd. now rewrite transit_eq, createEvent_eq, Hc, Hd.
Qed.

Lemma marshal_failure_is_atomic_witness :
  (GetCampaign world0 (CampaignId jane) (UserId jane) = Ok campaign10 /\
   @encode picky (details_of (@MarkClicked picky "")) =
     Err (ErrOther "json: unsupported value")) /\
  @transit picky (@MarkClicked picky "") world0 (calm 2000) jane =
    (world0, jane, Some (ErrOther "json: unsupported value")).
Proof.
  split; [split; reflexivity|].
  exact (@marshal_failure_is_atomic picky (@MarkClicked picky "") world0
           (calm 2000) jane campaign10 _ eq_refl eq_refl).
Defined.

(** X2.  When an operation passes its guard and the row write fails, the
    operation returns the write's error; the receiver in memory already
    carries the new status and modified date, the stored row of the record
    is the old one, and the event stays in the log. *)
Theorem failed_save_leaves_the_row_behind {X : Externals}
    (t : transition) (w : World) (env : Env) (r : Result)
    (c : Campaign.t) (dj : string) (e : error)
    (w' : World) (r' : Result) (err : option error) :
  GetCampaign w (CampaignId r) (UserId r) = Ok c ->
  encode (details_of t) = Ok dj ->
  guarded t (Status r) = false ->
  event_save env = None ->
  result_save env = Some e ->
  transit t w env r = (w', r', err) ->
  err = Some e /\
  (Status r' = status_after t (Status r) /\ ModifiedDate r' = now env) /\
  results w' = results w /\
  events w' = events w ++ [Event.mk (Campaign.Id c) (Email r) (now env)
                                    (kind_of t) dj].
Proof.
  intros Hc Hd Hg He Hs H.
  destruct (transit_writes t w env r c dj w' r' err Hc Hd Hg H)
    as (R & E & V & _ & K).
  rewrite Hs in E. subst err r'.
  split; [reflexivity|]. split; [|split].
  - unfold status_after. rewrite Hg. now destruct t.
  - apply K. discriminate.
  - now rewrite V, (events_appended _ _ _ He).
Qed.

Lemma failed_save_leaves_the_row_behind_witness :
  (GetCampaign (world_at "opened") 10 100 = Ok campaign10 /\
   @guarded spec_externals click_link "opened" = false) /\
  Status (snd (fst (@transit spec_externals click_link (world_at "opened")
                      (readonly 2000) (jane_at "opened")))) = "clicked" /\
  results (fst (fst (@transit spec_externals click_link (world_at "opened")
                       (readonly 2000) (jane_at "opened")))) =
    [jane_at "opened"].
Proof.
  split; [split; reflexivity|].
  destruct (@failed_save_leaves_the_row_behind spec_externals click_link
              (world_at "opened") (readonly 2000) (jane_at "opened")
              campaign10 "link" _ _ _ _
              eq_refl eq_refl eq_refl eq_refl eq_refl eq_refl)
    as (_ & (S & _) & K & _).
  split; [exact S|exact K].
Defined.


(** X4.  Once the reported flag is set, no sequence of transition
    operations clears it. *)
Theorem reported_is_never_reset {X : Externals}
    (ts : list (transition * Env)) (w : World) (r : Result) :
  Reported r = true -> Reported (snd (run ts w r)) = true.
Proof.
  revert w r. induction ts as [|[t env] ts IH]; intros w r H; simpl.
  - exact H.
  - destruct (transit_shape t w env r)
      as (evs & rows & r' & err & -> & _ & _ & _ & R).
    apply IH. destruct R as [-> | ->];
      [exact H|now apply Reported_written].
Qed.

Lemma reported_is_never_reset_witness :
  Reported (set_Reported true jane) = true /\
  Reported (snd (@run spec_externals
    [(@MarkSent spec_externals, calm 2000); (open_pixel, readonly 2100);
     (@MarkBackoff spec_externals "451 try later" 9000, calm 2200);
     (submit_form, locked 2300)]
    world0 (set_Reported true jane))) = true.
Proof.
  split; [reflexivity|].
  apply (@reported_is_never_reset spec_externals). reflexivity.
Defined.

(** X5.  Over any sequence of transition operations the event log only
    grows at its end, by at most one event per operation, and every event
    added carries the record's email and the record's campaign. *)
Theorem event_log_only_grows {X : Externals}
    (ts : list (transition * Env)) (w : World) (r : Result) :
  exists evs,
    events (fst (run ts w r)) = events w ++ evs /\
    (length evs <= length ts)%nat /\
    Forall (fun e => Event.Email e = Email r /\
                     Event.CampaignId e = CampaignId r) evs.
Proof.
  revert w r. induction ts as [|[t env] ts IH]; intros w r; simpl.
  - exists []. rewrite app_nil_r. repeat split; auto.
  - destruct (transit_shape t w env r)
      as (evs1 & rows & r' & err & -> & L & F & _ & R).
    destruct (IH (mkWorld (campaigns w) (events w ++ evs1) rows) r')
      as (evs2 & E & L2 & F2).
    assert (S : same_target r r')
      by (destruct R as [-> | ->];
          [apply same_target_refl|apply written_same_target]).
    destruct S as (_ & SC & _ & _ & SE & _).
    exists (evs1 ++ evs2). split; [|split].
    + rewrite E. simpl. now rewrite app_assoc.
    + rewrite length_app. lia.
    + apply Forall_app. split.
      * eapply Forall_impl; [|exact F]. simpl. intuition.
      * eapply Forall_impl; [|exact F2]. simpl. intros a [A B].
        split; congruence.
Qed.

(** X6.  A sequence of transition operations on one record never changes
    the stored row of a record with another primary key. *)
Theorem other_rows_are_untouched {X : Externals}
    (ts : list (transition * Env)) (w : World) (r : Result) (id : Z) :
  id <> Id r ->
  get_row id (results (fst (run ts w r))) = get_row id (results w).
Proof.
  revert w r. induction ts as [|[t env] ts IH]; intros w r N; simpl.
  - reflexivity.
  - destruct (transit_shape t w env r)
      as (evs & rows & r' & err & -> & _ & _ & W & R).
    assert (I : Id r' = Id r)
      by (destruct R as [-> | ->]; [reflexivity|apply Id_written]).
    rewrite IH by congruence. simpl.
    destruct W as [-> | ->]; [reflexivity|].
    apply put_row_other. congruence.
Qed.

Lemma other_rows_are_untouched_witness :
  2 <> Id jane /\
  get_row 2 (results (fst (@run spec_externals
    [(@MarkSent spec_externals, calm 2000); (open_pixel, calm 2100);
     (click_link, calm 2200); (report_button, calm 2300)]
    both jane))) = Some sam.
Proof.
  split; [discriminate|].
  exact (@other_rows_are_untouched spec_externals _ both jane 2
           ltac:(discriminate)).
Defined.

(** X7.  Replaying an operation changes nothing more in the status:
    whatever the two moments, the status after the same operation applied
    twice is the status after it was applied once. *)
Theorem replay_keeps_status {X : Externals}
    (t : transition) (w : World) (env1 env2 : Env) (r : Result) :
  Status (snd (fst (transit t (fst (fst (transit t w env1 r))) env2
                      (snd (fst (transit t w env1 r)))))) =
  Status (snd (fst (transit t w env1 r))).
Proof.
  pose proof (transit_status_exact t w env1 r) as H1.
  pose proof (transit_status_exact t (fst (fst (transit t w env1 r))) env2
                (snd (fst (transit t w env1 r)))) as H2.
  rewrite GetCampaign_transit in H2.
  destruct (GetCampaign w (CampaignId r) (UserId r)) as [c|e].
  - destruct (encode (details_of t)) as [dj|e].
    + rewrite H2, H1. apply status_after_idempotent.
    + now rewrite H2.
  - now rewrite H2.
Qed.

(** ** Identifier generation: failures, uniqueness, divergence *)

Lemma set_RId_own (r : Result) : r = set_RId (RId r) r.
Proof. now destruct r. Qed.

(** How the inner loop can end without a key. *)
Lemma draw_key_failure (ie : IdEnv) (n calls : nat) :
  match draw_key ie n calls with
  | Returns (Ok _) => True
  | Returns (Err e) => exists i, rand_Int ie i 62 = Err e
  | Panics => exists i idx,
      rand_Int ie i 62 = Ok idx /\ byte_at alphaNum idx = None
  | Exits => False
  end.
Proof.
  revert calls. induction n as [|n IH]; intros calls; simpl; [exact I|].
  change (Z.pos _) with 62.
  destruct (rand_Int ie calls 62) as [idx|e] eqn:R; [|now exists calls].
  destruct (byte_at alphaNum idx) as [c|] eqn:B; [|now exists calls, idx].
  specialize (IH (S calls)).
  now destruct (draw_key ie n (S calls)) as [[k|e]| |].
Qed.

(** Every way [GenerateId] can stop, and what it has done to the record. *)
Lemma GenerateId_from_outcome (fuel : nat) (ie : IdEnv) (w : World) :
  forall (attempt : nat) (r : Result) (o : outcome (Result * option error)),
    GenerateId_from fuel ie w attempt r = Some o ->
    match o with
    | Returns (r', None) => r' = set_RId (RId r') r
    | Returns (r', Some e) =>
      r' = set_RId (RId r') r /\ exists i, rand_Int ie i 62 = Err e
    | Panics => exists i idx,
        rand_Int ie i 62 = Ok idx /\ byte_at alphaNum idx = None
    | Exits => False
    end.
Proof.
  induction fuel as [|fuel IH]; intros attempt r o; [discriminate|].
  cbn [GenerateId_from].
  pose proof (draw_key_failure ie 7 (7 * attempt)) as F.
  destruct (draw_key ie 7 (7 * attempt)) as [[k|e]| |].
  - cbn zeta.
    assert (Again : GenerateId_from fuel ie w (S attempt)
                      (set_RId (string_of_list_ascii k) r) = Some o ->
            match o with
            | Returns (r', None) => r' = set_RId (RId r') r
            | Returns (r', Some e) =>
              r' = set_RId (RId r') r /\ exists i, rand_Int ie i 62 = Err e
            | Panics => exists i idx,
                rand_Int ie i 62 = Ok idx /\ byte_at alphaNum idx = None
            | Exits => False
            end).
    { intros H. apply IH in H. destruct o as [[r' [e|]]| |]; auto. }
    destruct (db_First_by_r_id _ _ w) as [[|m]|]; auto.
    intros [= <-]. reflexivity.
  - intros [= <-]. split; [apply set_RId_own|exact F].
  - destruct F.
  - intros [= <-]. exact F.
Qed.

(** X8.  [GenerateId] returns an error only when a call of [rand.Int]
    failed, and then it is that error: a failure of the database on the
    uniqueness query is never returned.  It panics only when a draw was
    outside the alphabet's bounds, it never ends the process, and however it
    returns it has changed no field of the record but the identifier. *)
Theorem GenerateId_failures_come_from_the_source
    (fuel : nat) (ie : IdEnv) (w : World) (r : Result) :
  (forall r' e,
     GenerateId fuel ie w r = Some (Returns (r', Some e)) ->
     exists i, rand_Int ie i 62 = Err e) /\
  (GenerateId fuel ie w r = Some Panics ->
   exists i idx, rand_Int ie i 62 = Ok idx /\ ~ 0 <= idx < 62) /\
  GenerateId fuel ie w r <> Some Exits /\
  (forall r' x,
     GenerateId fuel ie w r = Some (Returns (r', x)) ->
     r' = set_RId (RId r') r).
Proof.
  unfold GenerateId. split; [|split; [|split]].
  - intros r' e H. now apply GenerateId_from_outcome in H.
  - intros H. apply GenerateId_from_outcome in H as (i & idx & R & B).
    exists i, idx. split; [exact R|]. intros In.
    destruct (byte_at_total idx In) as (c & C). congruence.
  - intros H. now apply GenerateId_from_outcome in H.
  - intros r' x H. apply GenerateId_from_outcome in H.
    destruct x; [apply H|exact H].
Qed.

Lemma GenerateId_failures_come_from_the_source_witness :
  GenerateId 3 drained taken jane =
    Some (Returns (set_RId "dkryFMT" jane, Some (ErrOther "unexpected EOF"))) /\
  exists i, rand_Int drained i 62 = Err (ErrOther "unexpected EOF").
Proof.
  split; [reflexivity|].
  exact (proj1 (GenerateId_failures_come_from_the_source 3 drained taken jane)
           (set_RId "dkryFMT" jane) (ErrOther "unexpected EOF") eq_refl).
Defined.

Lemma generated_identifier_is_unused_rows
    (fuel : nat) (ie : IdEnv) (w : World) (r r' : Result) :
  (forall n, query_error ie n <> Some ErrRecordNotFound) ->
  GenerateId fuel ie w r = Some (Returns (r', None)) ->
  forall x, In x (results w) -> RId x <> RId r'.
Proof.
  intros Q H.
  destruct (GenerateId_from_success fuel ie w 0 r r' H)
    as (n & k & _ & _ & F & _).
  unfold db_First_by_r_id in F.
  destruct (query_error ie n) as [e|] eqn:E.
  - exfalso. apply (Q n). congruence.
  - destruct (find _ (results w)) eqn:N; [discriminate|].
    intros x Hx Heq.
    pose proof (find_none _ _ N x Hx) as B. simpl in B.
    apply String.eqb_neq in B. contradiction.
Qed.

(** X9.  When the database's own failures are not [ErrRecordNotFound], an
    identifier [GenerateId] returns without error is held by no stored
    row. *)
Theorem generated_identifier_is_unused
    (fuel : nat) (ie : IdEnv) (w : World) (r r' : Result) :
  (forall n, query_error ie n <> Some ErrRecordNotFound) ->
  GenerateId fuel ie w r = Some (Returns (r', None)) ->
  Forall (fun x => RId x <> RId r') (results w).
Proof.
  intros Q H. apply Forall_forall.
  exact (generated_identifier_is_unused_rows fuel ie w r r' Q H).
Qed.

Lemma generated_identifier_is_unused_witness :
  GenerateId 2 walking taken jane =
    Some (Returns (set_RId "07elszG" jane, None)) /\
  Forall (fun x => RId x <> "07elszG") (results taken).
Proof.
  split; [reflexivity|].
  apply (generated_identifier_is_unused 2 walking taken jane
           (set_RId "07elszG" jane)); [|reflexivity].
  intros n. discriminate.
Defined.

(** X10.  With a random source whose draws succeed within bounds,
    [GenerateId] does not return as long as no attempt finds its identifier
    free: when every candidate collides or every uniqueness query fails, the
    loop runs for ever. *)
Theorem GenerateId_runs_until_an_attempt_is_free
    (ie : IdEnv) (w : World) (r : Result) :
  draws_in_range ie ->
  (forall n, ~ free ie w n) ->
  forall fuel, GenerateId fuel ie w r = None.
Proof.
  intros D N fuel. unfold GenerateId. generalize 0%nat as attempt.
  revert r. induction fuel as [|fuel IH]; intros r attempt; [reflexivity|].
  cbn [GenerateId_from].
  destruct (draw_key_total ie 7 (7 * attempt) D) as (k & K). rewrite K.
  cbn zeta. cbn [RId set_RId].
  destruct (db_First_by_r_id (query_error ie attempt)
              (string_of_list_ascii k) w) as [[|m]|] eqn:Q; try apply IH.
  exfalso. apply (N attempt). now exists k.
Qed.

Lemma GenerateId_runs_until_an_attempt_is_free_witness :
  draws_in_range unreachable /\
  GenerateId 50 unreachable world0 jane = None.
Proof.
  assert (D : draws_in_range unreachable).
  { intros i. eexists. split; [reflexivity|].
    pose proof (Nat.mod_upper_bound (i * 7 + 3) 62). lia. }
  split; [exact D|].
  apply (GenerateId_runs_until_an_attempt_is_free unreachable world0 jane D).
  intros n (k & _ & Q). discriminate.
Defined.

(** ** Lookup by identifier *)

Lemma least_spec (rows : list Result) :
  match least rows with
  | None => rows = []
  | Some x => In x rows /\ forall y, In y rows -> Id x <= Id y
  end.
Proof.
  induction rows as [|x rest IH]; simpl; [reflexivity|].
  destruct (least rest) as [y|].
  - destruct IH as [Hy Hmin].
    destruct (Id x <=? Id y) eqn:L.
    + apply Z.leb_le in L. split; [now left|].
      intros z [<- | Hz]; [lia|]. specialize (Hmin z Hz). lia.
    + apply Z.leb_gt in L. split; [now right|].
      intros z [<- | Hz]; [lia|]. now apply Hmin.
  - subst rest. split; [now left|]. intros z [<- | []]. lia.
Qed.

Lemma least_head (x : Result) (rest : list Result) :
  (forall y, In y rest -> Id x <= Id y) -> least (x :: rest) = Some x.
Proof.
  intros H. simpl. pose proof (least_spec rest) as S.
  destruct (least rest) as [y|]; [|reflexivity].
  destruct S as [Hy _]. apply H, Z.leb_le in Hy. now rewrite Hy.
Qed.

Lemma find_filter (f : Result -> bool) (rows : list Result) :
  match find f rows with
  | None => filter f rows = []
  | Some _ => filter f rows <> []
  end.
Proof.
  induction rows as [|x rest IH]; simpl; [reflexivity|].
  destruct (f x); [discriminate|exact IH].
Qed.

(** The rows matching a record's identifier once the record is written,
    when the identifier belongs to that record alone. *)
Lemma least_after_put_row (r : Result) (rows : list Result) :
  (forall x, In x rows -> RId x = RId r -> Id x = Id r) ->
  least (filter (fun x => (RId x =? RId r)%string) (put_row r rows)) = Some r.
Proof.
  induction rows as [|x rest IH]; intros U; simpl.
  - now rewrite String.eqb_refl.
  - destruct (Id x =? Id r) eqn:E; simpl.
    + rewrite String.eqb_refl. apply least_head.
      intros y Hy. apply filter_In in Hy as [Hy Hr].
      apply String.eqb_eq in Hr.
      rewrite (U y (or_intror Hy) Hr). lia.
    + destruct (RId x =? RId r)%string eqn:R.
      * apply String.eqb_eq in R. apply Z.eqb_neq in E.
        now destruct (E (U x (or_introl eq_refl) R)).
      * apply IH. intros y Hy. apply U. now right.
Qed.

(** X11.  [GetResult] fails exactly when the uniqueness query of
    [GenerateId] fails on the same identifier, with the same error.  When it
    succeeds the record returned is a stored row with that identifier, the
    one with the least primary key; when it fails the record returned is the
    zero value. *)
Theorem GetResult_finds_the_row
    (failure : option error) (rid : string) (w : World) :
  snd (GetResult failure rid w) = db_First_by_r_id failure rid w /\
  (snd (GetResult failure rid w) = None ->
   In (fst (GetResult failure rid w)) (results w) /\
   RId (fst (GetResult failure rid w)) = rid /\
   forall x, In x (results w) -> RId x = rid ->
             Id (fst (GetResult failure rid w)) <= Id x) /\
  (snd (GetResult failure rid w) <> None ->
   fst (GetResult failure rid w) = zero_Result).
Proof.
  unfold GetResult, db_First_by_r_id.
  destruct failure as [e|]; simpl.
  - split; [reflexivity|]. split; [discriminate|reflexivity].
  - pose proof (find_filter (fun x => (RId x =? rid)%string) (results w)) as FF.
    pose proof (least_spec
                  (filter (fun x => (RId x =? rid)%string) (results w))) as LS.
    destruct (least _) as [x|]; simpl.
    + destruct (find _ (results w)).
      * split; [reflexivity|]. split; [|congruence].
        intros _. destruct LS as [Hx Hmin].
        apply filter_In in Hx as [Hx Hr]. apply String.eqb_eq in Hr.
        repeat split; auto.
        intros y Hy Hry. apply Hmin, filter_In. split; [exact Hy|].
        now apply String.eqb_eq.
      * rewrite FF in LS. now destruct LS.
    + destruct (find _ (results w)).
      * now destruct FF.
      * split; [reflexivity|]. split; [discriminate|reflexivity].
Qed.

(** X12.  When the database's own failures are not [ErrRecordNotFound], a
    record that got its identifier from [GenerateId] and was then saved is
    the record [GetResult] returns for that identifier, as the save left the
    struct: with the primary key the database assigned when the record was
    new, unchanged when it was stored before. *)
Theorem generated_then_saved_is_found
    (fuel : nat) (ie : IdEnv) (env : Env) (key : Z) (w w' : World)
    (r r' stored : Result) :
  (forall n, query_error ie n <> Some ErrRecordNotFound) ->
  GenerateId fuel ie w r = Some (Returns (r', None)) ->
  gorm_Save env key r' w = (w', stored, None) ->
  stored = (if Id r =? 0 then set_Id key r' else r') /\
  GetResult None (RId r') w' = (stored, None).
Proof.
  intros Q G S.
  pose proof (generated_identifier_is_unused_rows fuel ie w r r' Q G) as U.
  assert (I : Id r' = Id r).
  { apply (GenerateId_from_outcome fuel ie w 0 r _) in G. rewrite G.
    reflexivity. }
  unfold gorm_Save in S. rewrite I in S.
  destruct (Id r =? 0).
  - destruct (result_save env); [discriminate|].
    inversion S; subst w' stored; clear S.
    split; [reflexivity|].
    unfold GetResult. simpl. rewrite filter_app. simpl.
    rewrite String.eqb_refl.
    replace (filter _ (results w)) with (@nil Result); [reflexivity|].
    symmetry. pose proof (find_filter (fun x => (RId x =? RId r')%string)
                            (results w)) as F.
    destruct (find _ (results w)) as [x|] eqn:Fx; [|exact F].
    apply find_some in Fx as [Hx Hr]. apply String.eqb_eq in Hr.
    now destruct (U x Hx).
  - rewrite save_and_return_eq in S.
    destruct (result_save env); [discriminate|].
    inversion S; subst w' stored; clear S.
    split; [reflexivity|].
    unfold GetResult. simpl. rewrite least_after_put_row; [reflexivity|].
    intros x Hx Hr. now destruct (U x Hx).
Qed.

Lemma generated_then_saved_is_found_witness :
  (Id newcomer = 0 /\
   GenerateId 2 walking taken newcomer =
     Some (Returns (set_RId "07elszG" newcomer, None)) /\
   gorm_Save (calm 3000) 2 (set_RId "07elszG" newcomer) taken =
     (mkWorld [campaign10] []
        [set_RId "dkryFMT" jane; set_Id 2 (set_RId "07elszG" newcomer)],
      set_Id 2 (set_RId "07elszG" newcomer), None)) /\
  GetResult None "07elszG"
    (mkWorld [campaign10] []
       [set_RId "dkryFMT" jane; set_Id 2 (set_RId "07elszG" newcomer)]) =
    (set_Id 2 (set_RId "07elszG" newcomer), None).
Proof.
  split; [repeat split|].
  refine (proj2 (generated_then_saved_is_found 2 walking (calm 3000) 2 taken
                   _ newcomer (set_RId "07elszG" newcomer) _ _
                   eq_refl eq_refl)).
  intros n. discriminate.
Defined.

(** X13.  When the identifier of a record is held by no row of another
    primary key, an operation on it that passes its guard and returns no
    error is visible to the next lookup: [GetResult] on the record's
    identifier returns the record as the operation left it. *)
Theorem a_saved_transition_is_what_GetResult_returns {X : Externals}
    (t : transition) (w : World) (env : Env) (r : Result)
    (c : Campaign.t) (dj : string) (w' : World) (r' : Result) :
  GetCampaign w (CampaignId r) (UserId r) = Ok c ->
  encode (details_of t) = Ok dj ->
  guarded t (Status r) = false ->
  (forall x, In x (results w) -> RId x = RId r -> Id x = Id r) ->
  transit t w env r = (w', r', None) ->
  GetResult None (RId r) w' = (r', None).
Proof.
  intros Hc Hd Hg U H.
  rewrite (transit_ok t w env r c dj Hc Hd), Hg, save_and_return_eq in H.
  destruct (result_save env); [discriminate|].
  inversion H; subst w' r'; clear H.
  destruct (written_same_target t (now env) r) as (SI & _ & _ & SR & _).
  unfold GetResult. simpl. rewrite (proj2 (appended_tables _ _ _)).
  rewrite <- SR. rewrite least_after_put_row; [reflexivity|].
  intros x Hx Hr. rewrite SI. apply U; congruence.
Qed.

Lemma a_saved_transition_is_what_GetResult_returns_witness :
  (GetCampaign both (CampaignId sam) (UserId sam) = Ok campaign10 /\
   @guarded spec_externals open_pixel (Status sam) = false) /\
  GetResult None "Qr5tUv8"
    (fst (fst (@transit spec_externals open_pixel both (calm 2000) sam))) =
  (set_ModifiedDate 2000 (set_Status "opened" sam), None).
Proof.
  split; [split; reflexivity|].
  apply (@a_saved_transition_is_what_GetResult_returns spec_externals
           open_pixel both (calm 2000) sam campaign10 "pixel");
    try reflexivity.
  intros x [<- | [<- | []]]; [discriminate|reflexivity].
Defined.

(** ** Geolocation beside the status *)

Section GeoFacts.
Context {X : Externals}.

Lemma written_set_Geo (t : transition) (stamp : time_Time) (addr : string)
    (lat lon : float64) (r : Result) :
  written t stamp (set_Geo addr lat lon r) =
  set_Geo addr lat lon (written t stamp r).
Proof. now destruct t. Qed.

(** The receiver and the log after an operation, from the campaigns, the
    log and the receiver before it. *)
Lemma transit_record_and_log (t : transition) (w : World) (env : Env)
    (r : Result) :
  snd (fst (transit t w env r)) =
    match GetCampaign w (CampaignId r) (UserId r), encode (details_of t) with
    | Ok _, Ok _ => if guarded t (Status r) then r else written t (now env) r
    | _, _ => r
    end /\
  events (fst (fst (transit t w env r))) =
    match GetCampaign w (CampaignId r) (UserId r), encode (details_of t) with
    | Ok c, Ok dj =>
      match event_save env with
      | None => events w ++ [recorded env c r (kind_of t) dj]
      | Some _ => events w
      end
    | _, _ => events w
    end.
Proof.
  rewrite transit_eq, createEvent_eq.
  destruct (GetCampaign w (CampaignId r) (UserId r)) as [c|e]; [|now simpl].
  destruct (encode (details_of t)) as [dj|e]; [|now simpl].
  assert (E : events (appended env (recorded env c r (kind_of t) dj) w) =
              match event_save env with
              | None => events w ++ [recorded env c r (kind_of t) dj]
              | Some _ => events w
              end)
    by (unfold appended; now destruct (event_save env)).
  destruct (guarded t (Status r)); [now simpl|].
  rewrite save_and_return_eq. now destruct (result_save env).
Qed.

End GeoFacts.

(** What [UpdateGeo] leaves alone, in the form the composition needs. *)
Lemma UpdateGeo_geo_only {X : Externals}
    (w : World) (env : Env) (r : Result) (addr : string)
    (w' : World) (r' : Result) (err : option error) :
  UpdateGeo w env r addr = Returns (w', r', err) ->
  (events w' = events w /\ campaigns w' = campaigns w) /\
  (r' = r \/ exists lat lon, r' = set_Geo addr lat lon r).
Proof.
  unfold UpdateGeo.
  destruct (maxminddb_Open _) as [mmdb|e]; [|discriminate].
  destruct (Lookup mmdb (net_ParseIP addr)) as [city|e].
  - rewrite save_and_return_eq.
    destruct (result_save env) as [e|]; intros [= <- <- <-]; simpl;
      (split; [now split|right; eauto]).
  - intros [= <- <- <-]. split; [now split|now left].
Qed.



(** X15.  Geolocation and a transition operation commute on the record and
    on the event log: with the dataset open, running the operation and then
    [UpdateGeo] leaves the same record in memory and the same log as running
    [UpdateGeo] and then the operation, whatever the outcome of any of the
    writes. *)
Theorem geolocation_commutes_with_transitions {X : Externals}
    (t : transition) (w : World) (env1 env2 : Env) (r : Result)
    (addr : string) (wa wb : World) (ra rb : Result) (xa xb : option error) :
  UpdateGeo (fst (fst (transit t w env1 r))) env2
            (snd (fst (transit t w env1 r))) addr = Returns (wa, ra, xa) ->
  UpdateGeo w env2 r addr = Returns (wb, rb, xb) ->
  snd (fst (transit t wb env1 rb)) = ra /\
  events (fst (fst (transit t wb env1 rb))) = events wa.
Proof.
  intros HA HB.
  pose proof (UpdateGeo_geo_only _ _ _ _ _ _ _ HA) as (EA & RA).
  pose proof (UpdateGeo_geo_only _ _ _ _ _ _ _ HB) as (EB & RB).
  destruct EB as (EvB & CB).
  assert (GC : GetCampaign wb (CampaignId rb) (UserId rb) =
               GetCampaign w (CampaignId r) (UserId r)).
  { unfold GetCampaign. rewrite CB.
    destruct RB as [-> | (la & lo & ->)]; reflexivity. }
  destruct (transit_record_and_log t wb env1 rb) as (R2 & E2).
  destruct (transit_record_and_log t w env1 r) as (R1 & E1).
  rewrite GC in R2, E2. rewrite R2, E2, (proj1 EA), E1, EvB.
  unfold UpdateGeo in HA, HB.
  destruct (maxminddb_Open _) as [mmdb|e]; [|discriminate].
  destruct (Lookup mmdb (net_ParseIP addr)) as [city|e].
  - rewrite save_and_return_eq in HA, HB.
    assert (ra = set_Geo addr (gp_Latitude (GeoPoint city))
                   (gp_Longitude (GeoPoint city))
                   (snd (fst (transit t w env1 r)))) as ->
      by (destruct (result_save env2); now inversion HA).
    assert (rb = set_Geo addr (gp_Latitude (GeoPoint city))
                   (gp_Longitude (GeoPoint city)) r) as ->
      by (destruct (result_save env2); now inversion HB).
    rewrite R1. simpl Status.
    destruct (GetCampaign w (CampaignId r) (UserId r)) as [c|e];
      [|now split].
    destruct (encode (details_of t)) as [dj|e]; [|now split].
    split; [|reflexivity].
    destruct (guarded t (Status r)); [reflexivity|apply written_set_Geo].
  - revert HA HB. intros [= <- <- <-] [= <- <- <-]. rewrite R1.
    destruct (GetCampaign w (CampaignId r) (UserId r)) as [c|e0];
      [|now split].
    destruct (encode (details_of t)) as [dj|e0]; now split.
Qed.

Lemma geolocation_commutes_with_transitions_witness :
  exists wa ra xa wb rb xb,
    @UpdateGeo spec_externals
      (fst (fst (@transit spec_externals click_link (world_at "opened")
                   (calm 2000) (jane_at "opened"))))
      (readonly 2100)
      (snd (fst (@transit spec_externals click_link (world_at "opened")
                   (calm 2000) (jane_at "opened"))))
      "203.0.113.7" = Returns (wa, ra, xa) /\
    @UpdateGeo spec_externals (world_at "opened") (readonly 2100)
      (jane_at "opened") "203.0.113.7" = Returns (wb, rb, xb) /\
    snd (fst (@transit spec_externals click_link wb (calm 2000) rb)) = ra /\
    Status ra = "clicked" /\ IP ra = "203.0.113.7".
Proof.
  do 6 eexists. split; [reflexivity|]. split; [reflexivity|].
  split; [|split; reflexivity].
  exact (proj1 (@geolocation_commutes_with_transitions spec_externals
                  click_link (world_at "opened") (calm 2000) (readonly 2100)
                  (jane_at "opened") "203.0.113.7" _ _ _ _ _ _
                  eq_refl eq_refl)).
Defined.

(** ** The mail address *)

(** X16.  Whatever the display form of [net/mail] is: [FormatAddress] is
    the bare email as soon as the first name or the last name is empty; it
    is the display form of the two names joined by one space otherwise; and
    no sequence of transition operations changes it. *)
Theorem FormatAddress_through_the_lifecycle {X : Externals}
    (display : string -> string -> string) :
  (forall r,
     FirstName r = "" \/ LastName r = "" ->
     FormatAddress display r = Email r) /\
  (forall r,
     FirstName r <> "" -> LastName r <> "" ->
     FormatAddress display r =
       display (FirstName r ++ " " ++ LastName r)%string (Email r)) /\
  (forall ts w r,
     FormatAddress display (snd (run ts w r)) = FormatAddress display r).
Proof.
  split; [|split].
  - intros r [H | H]; unfold FormatAddress; rewrite H; simpl;
      [reflexivity|].
    now rewrite andb_false_r.
  - intros r HF HL. unfold FormatAddress.
    apply String.eqb_neq in HF. apply String.eqb_neq in HL.
    now rewrite HF, HL.
  - intros ts w r.
    destruct (run_same_target ts w r) as (_ & _ & _ & _ & E & F & L & _).
    unfold FormatAddress. now rewrite E, F, L.
Qed.

Lemma FormatAddress_through_the_lifecycle_witness :
  (LastName sam = "" /\ FirstName jane <> "" /\ LastName jane <> "") /\
  FormatAddress quoting sam = "sam@example.com" /\
  FormatAddress quoting jane = quoting "Jane Doe" "jane@example.com" /\
  FormatAddress quoting
    (snd (@run spec_externals
            [(@MarkSent spec_externals, calm 2000); (open_pixel, calm 2100)]
            world0 jane)) = FormatAddress quoting jane.
Proof.
  split; [repeat split; discriminate|].
  pose proof (@FormatAddress_through_the_lifecycle spec_externals quoting)
    as (Bare & Full & Run).
  split; [|split].
  - apply (Bare sam). now right.
  - apply (Full jane); discriminate.
  - apply Run.
Defined.

(** ** Where errors and statuses come from *)

(** X17.  An error a transition operation returns is the campaign lookup's,
    the encoder's, or the row write's of an operation that passed its guard;
    and an operation that returns an error from the first two has changed
    nothing. *)
Theorem errors_of_an_operation {X : Externals}
    (t : transition) (w : World) (env : Env) (r : Result)
    (w' : World) (r' : Result) (e : error) :
  transit t w env r = (w', r', Some e) ->
  (GetCampaign w (CampaignId r) (UserId r) = Err e /\ w' = w /\ r' = r) \/
  (encode (details_of t) = Err e /\ w' = w /\ r' = r) \/
  (result_save env = Some e /\ guarded t (Status r) = false /\
   results w' = results w).
Proof.
  rewrite transit_eq, createEvent_eq.
  destruct (GetCampaign w (CampaignId r) (UserId r)) as [c|e0].
  - destruct (encode (details_of t)) as [dj|e0].
    + destruct (guarded t (Status r)); [discriminate|].
      rewrite save_and_return_eq.
      destruct (result_save env) as [e0|]; [|discriminate].
      intros [= <- <- <-]. right. right. repeat split.
      apply appended_tables.
    + intros [= <- <- <-]. right. left. auto.
  - intros [= <- <- <-]. left. auto.
Qed.

Lemma errors_of_an_operation_witness :
  @transit spec_externals submit_form world0 (readonly 2000) jane =
    (mkWorld [campaign10]
       [Event.mk 10 "jane@example.com" 2000 "submitted-data" "form"] [jane],
     set_ModifiedDate 2000 (jane_at "submitted-data"),
     Some (ErrOther "attempt to write a readonly database")) /\
  result_save (readonly 2000) =
    Some (ErrOther "attempt to write a readonly database").
Proof.
  split; [reflexivity|].
  destruct (@errors_of_an_operation spec_externals submit_form world0
              (readonly 2000) jane _ _ _ eq_refl)
    as [(H & _) | [(H & _) | (H & _)]]; [discriminate|discriminate|exact H].
Defined.

(** X18.  After any sequence of transition operations the status is the
    one the record started with or one of the six values the handlers
    write: sent, error, retry, opened, clicked, submitted-data. *)
Theorem statuses_a_record_can_reach {X : Externals}
    (ts : list (transition * Env)) (w : World) (r : Result) :
  Status (snd (run ts w r)) = Status r \/
  In (Status (snd (run ts w r)))
     [EVENT_SENT; ERROR; STATUS_RETRY; EVENT_OPENED; EVENT_CLICKED;
      EVENT_DATA_SUBMIT].
Proof.
  revert w r. induction ts as [|[t env] ts IH]; intros w r; simpl.
  - now left.
  - pose proof (transit_status t w env r) as S.
    destruct (transit t w env r) as [[w' r'] err]. simpl in S.
    destruct (IH w' r') as [E | I]; [|now right].
    rewrite E. destruct S as [-> | ->]; [now left|].
    unfold status_after. destruct (guarded t (Status r)); [now left|].
    destruct t; simpl; auto 10.
Qed.

(** ** The identifier kept *)

Lemma GenerateId_from_first_free (ie : IdEnv) (w : World) (n : nat)
    (k : list ascii) :
  draws_in_range ie ->
  (forall m, (m < n)%nat -> ~ free ie w m) ->
  draw_key ie 7 (7 * n) = Returns (Ok k) ->
  db_First_by_r_id (query_error ie n) (string_of_list_ascii k) w =
    Some ErrRecordNotFound ->
  forall (j start : nat) (r : Result) (fuel : nat),
    (start + j = n)%nat -> (j < fuel)%nat ->
    GenerateId_from fuel ie w start r =
      Some (Returns (set_RId (string_of_list_ascii k) r, None)).
Proof.
  intros D N K Q. induction j as [|j IH]; intros start r fuel E L.
  - rewrite Nat.add_0_r in E. subst start.
    destruct fuel as [|fuel]; [lia|].
    cbn [GenerateId_from]. rewrite K. cbn zeta. cbn [RId set_RId].
    now rewrite Q.
  - destruct fuel as [|fuel]; [lia|].
    cbn [GenerateId_from].
    destruct (draw_key_total ie 7 (7 * start) D) as (k0 & K0). rewrite K0.
    cbn zeta. cbn [RId set_RId].
    destruct (db_First_by_r_id (query_error ie start)
                (string_of_list_ascii k0) w) as [[|m]|] eqn:Q0.
    + exfalso. apply (N start); [lia|]. now exists k0.
    + rewrite (IH (S start)) by lia. reflexivity.
    + rewrite (IH (S start)) by lia. reflexivity.
Qed.

(** X19.  With draws that succeed within bounds, [GenerateId] keeps the
    candidate of the first attempt the database reports free: it returns no
    error, the identifier is that candidate, every other field is as it was,
    and the earlier candidates are discarded, for every bound on the number
    of attempts beyond that one. *)
Theorem GenerateId_keeps_the_first_free_candidate
    (ie : IdEnv) (w : World) (r : Result) (n : nat) (k : list ascii)
    (fuel : nat) :
  draws_in_range ie ->
  (forall m, (m < n)%nat -> ~ free ie w m) ->
  draw_key ie 7 (7 * n) = Returns (Ok k) ->
  db_First_by_r_id (query_error ie n) (string_of_list_ascii k) w =
    Some ErrRecordNotFound ->
  (n < fuel)%nat ->
  GenerateId fuel ie w r =
    Some (Returns (set_RId (string_of_list_ascii k) r, None)).
Proof.
  intros D N K Q L. unfold GenerateId.
  apply (GenerateId_from_first_free ie w n k D N K Q n 0%nat r fuel);
    [reflexivity|exact L].
Qed.

Lemma GenerateId_keeps_the_first_free_candidate_witness :
  (draws_in_range walking /\ ~ free walking taken 0) /\
  GenerateId 9 walking taken jane =
    Some (Returns (set_RId "07elszG" jane, None)).
Proof.
  assert (N : ~ free walking taken 0).
  { intros (k & K & Q). injection K as <-. discriminate. }
  split; [split; [exact walking_in_range|exact N]|].
  apply (GenerateId_keeps_the_first_free_candidate walking taken jane 1%nat
           (list_ascii_of_string "07elszG") 9%nat walking_in_range);
    try reflexivity; try lia.
  intros m Hm. replace m with 0%nat by lia. exact N.
Defined.

(** ** Two more concrete checks *)

Lemma GetResult_finds_the_row_witness :
  GetResult None "Qr5tUv8" both = (sam, None) /\
  GetResult None "zzzzzzz" both = (zero_Result, Some ErrRecordNotFound) /\
  In (fst (GetResult None "Qr5tUv8" both)) (results both).
Proof.
  split; [reflexivity|]. split; [reflexivity|].
  exact (proj1 (proj1 (proj2 (GetResult_finds_the_row None "Qr5tUv8" both))
                  eq_refl)).
Defined.

